(** * The certification dashboard worker (src/worker.js)

    A shallow embedding of the Cloudflare worker that proxies a NocoDB table
    of certification records and serves four JSON endpoints:
    the raw list, a grouped summary, a monthly trend rollup and a
    DataTables feed (filter, sort, page).

    Conventions of the embedding.
    - A JavaScript string is a sequence of code units; the model keeps the
      code units below 256 (Rocq's [string]).  Comparison with [<] is the
      lexicographic comparison of code units, [toLowerCase] folds the
      letters of that range.
    - A record is the object parsed from the upstream JSON: field name to
      [null] or a string (the data model of the specification).  A field
      that is not there reads as [undefined].
    - An object built by the worker with [{}] is a list of own properties in
      creation order, read through [Object.prototype] and enumerated the way
      the language enumerates own keys (array indices first).
    - A run of statements ends in a value or in a [throw]; an [async]
      function's result is the state its promise settles in.
    - The network, the static asset handler, the date parser and the clock
      are parameters of the handlers.

    Outside the model: logging, a body of the upstream that is not JSON or
    has no [list], and the escaping of query strings. *)

From stdpp Require Import gmap strings list pretty.
From Stdlib Require Import Ascii ZArith Lia Sorted Permutation.

Open Scope Z_scope.

(** ** Text *)

(** One code unit of [String.prototype.toLowerCase]: A-Z and the capital
    letters of the Latin-1 block (U+00C0-U+00DE, the sign U+00D7 apart) move
    up by 32. *)
Definition lowerUnit (c : ascii) : ascii :=
  let n := N_of_ascii c in
  if ((65 <=? n)%N && (n <=? 90)%N)
     || ((192 <=? n)%N && (n <=? 222)%N && negb (n =? 215)%N)
  then ascii_of_N (n + 32) else c.

Fixpoint toLowerCase (s : string) : string :=
  match s with
  | EmptyString => EmptyString
  | String c s' => String (lowerUnit c) (toLowerCase s')
  end.

(** [s.includes(search)] *)
Definition includes (s search : string) : bool :=
  match String.index 0 search s with
  | Some _ => true
  | None => false
  end.

(** [s.substring(from, to)] for [from <= to], both non-negative. *)
Definition substring (s : string) (from to : nat) : string :=
  String.substring from (to - from) s.

(** ** Values of a record *)

Inductive jsvalue : Type :=
  | JNull
  | JString (s : string).

#[global] Instance jsvalue_eq_dec : EqDecision jsvalue.
Proof. solve_decision. Defined.

Abbreviation record := (gmap string jsvalue).

(** [String(value)] *)
Definition StringOf (v : jsvalue) : string :=
  match v with
  | JNull => "null"
  | JString s => s
  end.

(** [v || fallback], for a field read [v] and a string [fallback]:
    [undefined], [null] and the empty string are falsy. *)
Definition orElse (v : option jsvalue) (fallback : string) : string :=
  match v with
  | Some (JString s) => if String.eqb s "" then fallback else s
  | _ => fallback
  end.

(** ** Numbers *)

(** The numbers the worker computes with: integers, and [NaN]. *)
Inductive jsnum : Type :=
  | NaN
  | Num (z : Z).

Definition numAdd (a b : jsnum) : jsnum :=
  match a, b with
  | Num x, Num y => Num (x + y)
  | _, _ => NaN
  end.

(** [ToIntegerOrInfinity] *)
Definition toInteger (a : jsnum) : Z :=
  match a with
  | NaN => 0
  | Num z => z
  end.

(** ** Ordering helpers *)

(** The outcome of a stable sort under a consistent comparator is fixed by
    the language: elements ordered by [cmp], equal ones in their original
    order.  [stableSort] computes it by insertion: [x], which stood before
    every element of [l], goes in front of the first element it does not
    compare greater than. *)
Section StableSort.
Context {A : Type} (cmp : A -> A -> Z).

Fixpoint insertBy (x : A) (l : list A) : list A :=
  match l with
  | [] => [x]
  | y :: l' => if cmp x y <=? 0 then x :: y :: l' else y :: insertBy x l'
  end.

Fixpoint stableSort (l : list A) : list A :=
  match l with
  | [] => []
  | x :: l' => insertBy x (stableSort l')
  end.

End StableSort.

(** The comparison [Array.prototype.sort] uses when it gets no comparator,
    on strings. *)
Definition defaultCompare (x y : string) : Z :=
  if String.ltb x y then -1 else if String.ltb y x then 1 else 0.

(** ** Objects created with [{}] *)

Module Obj.

(** What [Object.prototype] holds under a name: a built-in method, or the
    [__proto__] accessor. *)
Inductive inherited : Type :=
  | Method (name : string)
  | ProtoAccessor.

Definition objectPrototype (k : string) : option inherited :=
  if String.eqb k "constructor" then Some (Method "Object")
  else if String.eqb k "__proto__" then Some ProtoAccessor
  else if existsb (String.eqb k)
            ["toString"; "toLocaleString"; "valueOf"; "hasOwnProperty";
             "isPrototypeOf"; "propertyIsEnumerable";
             "__defineGetter__"; "__defineSetter__";
             "__lookupGetter__"; "__lookupSetter__"]
  then Some (Method k)
  else None.

(** [String(x)] of what a read through the prototype gives (V8's text for a
    built-in function; the accessor gives [Object.prototype] itself). *)
Definition inheritedText (m : inherited) : string :=
  match m with
  | Method name => "function " +:+ name +:+ "() { [native code] }"
  | ProtoAccessor => "[object Object]"
  end.

Section Properties.
Context {V : Type}.

(** Own properties, in creation order. *)
Definition t : Type := list (string * V).

Definition empty : t := [].

Fixpoint own (o : t) (k : string) : option V :=
  match o with
  | [] => None
  | (k', v) :: o' => if String.eqb k k' then Some v else own o' k
  end.

Fixpoint overwrite (o : t) (k : string) (v : V) : t :=
  match o with
  | [] => []
  | (k', v') :: o' =>
      if String.eqb k k' then (k', v) :: o' else (k', v') :: overwrite o' k v
  end.

(** The result of the read [o[k]]. *)
Inductive slot : Type :=
  | Own (v : V)
  | Inherited (m : inherited)
  | Undefined.

Definition get (o : t) (k : string) : slot :=
  match own o k with
  | Some v => Own v
  | None =>
      match objectPrototype k with
      | Some m => Inherited m
      | None => Undefined
      end
  end.

(** The assignment [o[k] = v].  An existing own property is overwritten, a
    new one is appended.  Under [__proto__] the assignment reaches the
    accessor of [Object.prototype] and creates no own property (the value
    is a number or a text wherever the worker can assign under that name,
    and the accessor ignores those). *)
Definition set (o : t) (k : string) (v : V) : t :=
  match own o k with
  | Some _ => overwrite o k v
  | None => if String.eqb k "__proto__" then o else (o ++ [(k, v)])%list
  end.

End Properties.

Arguments t : clear implicits.
Arguments slot : clear implicits.

(** The value of a decimal digit string. *)
Definition digitValue (c : ascii) : option N :=
  let n := N_of_ascii c in
  if ((48 <=? n) && (n <=? 57))%N then Some (n - 48)%N else None.

Fixpoint digitsValue (acc : N) (s : string) : option N :=
  match s with
  | EmptyString => Some acc
  | String c s' =>
      match digitValue c with
      | Some d => digitsValue (10 * acc + d)%N s'
      | None => None
      end
  end.

(** [k] as an array index: a canonical decimal numeral (no leading zero)
    of value at most 2^32 - 2. *)
Definition arrayIndex (k : string) : option N :=
  match k with
  | EmptyString => None
  | String c rest =>
      if Ascii.eqb c "0" && negb (String.eqb rest "") then None
      else match digitsValue 0 k with
           | Some n => if (n <=? 4294967294)%N then Some n else None
           | None => None
           end
  end.

Definition indexCompare (x y : N) : Z :=
  if (x <? y)%N then -1 else if (y <? x)%N then 1 else 0.

(** The number an array-index key stands for. *)
Definition indexValue (k : string) : N := default 0%N (arrayIndex k).

Definition compareIndexKeys (x y : string) : Z :=
  indexCompare (indexValue x) (indexValue y).

Definition isIndex (k : string) : bool :=
  match arrayIndex k with Some _ => true | None => false end.

(** Own keys in the order of [Object.keys] and [JSON.stringify]: array
    indices in ascending numeric order, then the other names in creation
    order. *)
Definition keys {V : Type} (o : t V) : list string :=
  let ks := map fst o in
  (stableSort compareIndexKeys (List.filter isIndex ks)
     ++ List.filter (fun k => negb (isIndex k)) ks)%list.

End Obj.

(** ** Aggregator ([getCertificationsSummary], lines 118-133) *)

(** A stored counter: a number, or the text that [+] builds when its left
    operand is not a number. *)
Inductive count : Type :=
  | CountNum (n : Z)
  | CountText (s : string).

(** [(x || 0) + 1] for the read [x] of a counter. *)
Definition orZeroPlusOne (x : Obj.slot count) : count :=
  match x with
  | Obj.Own (CountNum n) => CountNum (n + 1)
  | Obj.Own (CountText s) =>
      if String.eqb s "" then CountNum 1 else CountText (s +:+ "1")
  | Obj.Inherited m => CountText (Obj.inheritedText m +:+ "1")
  | Obj.Undefined => CountNum 1
  end.

(** [counts[key] = (counts[key] || 0) + 1] *)
Definition increment (counts : Obj.t count) (key : string) : Obj.t count :=
  Obj.set counts key (orZeroPlusOne (Obj.get counts key)).

Record Summary : Type := mkSummary {
  total : Z;
  byCredential : Obj.t count;
  byCounty : Obj.t count;
  byCity : Obj.t count
}.

(** [cert.FIELD || 'Unknown'] *)
Definition groupKey (field : string) (cert : record) : string :=
  orElse (cert !! field) "Unknown".

(** The body of the [forEach] callback. *)
Definition countCert (summary : Summary) (cert : record) : Summary :=
  let credential := groupKey "CREDENTIAL" cert in
  let county := groupKey "COUNTY" cert in
  let city := groupKey "CITY" cert in
  {| total := total summary;
     byCredential := increment (byCredential summary) credential;
     byCounty := increment (byCounty summary) county;
     byCity := increment (byCity summary) city |}.

Definition summarize (allCertifications : list record) : Summary :=
  fold_left countCert allCertifications
    {| total := Z.of_nat (List.length allCertifications);
       byCredential := Obj.empty;
       byCounty := Obj.empty;
       byCity := Obj.empty |}.

(** The sum of the counts stored in a grouping, when every one of them is a
    number. *)
Fixpoint sumCounts (counts : Obj.t count) : option Z :=
  match counts with
  | [] => Some 0
  | (_, CountNum n) :: rest => (fun s => n + s) <$> sumCounts rest
  | (_, CountText _) :: rest => None
  end.

(** ** Errors and completions *)

Record JsError : Type := mkError {
  errorName : string;
  message : string
}.

Definition TypeError (msg : string) : JsError := mkError "TypeError" msg.
Definition ReferenceError (msg : string) : JsError := mkError "ReferenceError" msg.
Definition Error (msg : string) : JsError := mkError "Error" msg.

(** How a run of statements ends: normally with a value, or by a [throw]. *)
Inductive result (A : Type) : Type :=
  | Ok (a : A)
  | Throw (e : JsError).

Arguments Ok {A} a.
Arguments Throw {A} e.

#[global] Instance result_ret : MRet result := fun A a => Ok a.

(** Sequencing: a [throw] skips the statements that follow. *)
#[global] Instance result_bind : MBind result := fun A B k r =>
  match r with
  | Ok a => k a
  | Throw e => Throw e
  end.

Fixpoint forEach {A S : Type} (f : S -> A -> result S) (l : list A) (s : S)
  : result S :=
  match l with
  | [] => Ok s
  | x :: l' => s' ← f s x; forEach f l' s'
  end.

(** ** Trend builder ([getMonthlyTrends], lines 141-197) *)

(** What the worker observes of a [Date]. *)
Record Instant : Type := mkInstant {
  getFullYear : Z;
  getMonth : Z;
  toISOString : string
}.

Record Bucket : Type := mkBucket {
  newlyCertified : Obj.t jsnum;
  lapsed : Z;
  expired : Z;
  ethicsViolations : Z
}.

(** [{ newlyCertified: {}, lapsed: 0, expired: 0, ethicsViolations: 0 }] *)
Definition freshBucket : Bucket :=
  {| newlyCertified := Obj.empty; lapsed := 0; expired := 0;
     ethicsViolations := 0 |}.

Definition getMonthEntry (dateStr : option jsvalue) : option string :=
  match dateStr with
  | Some (JString s) =>
      if String.eqb s "" then None else Some (substring s 0 7)
  | _ => None
  end.

(** Truthiness of a month entry ([null] or a string). *)
Definition isMonth (m : option string) : bool :=
  match m with
  | Some s => negb (String.eqb s "")
  | None => false
  end.

(** A month entry used as a property key. *)
Definition monthKey (m : option string) : string :=
  match m with
  | Some s => s
  | None => "null"
  end.

(** [if (!monthlyData[month]) monthlyData[month] = { ... }] *)
Definition ensureBucket (monthlyData : Obj.t Bucket) (month : string)
  : Obj.t Bucket :=
  match Obj.get monthlyData month with
  | Obj.Undefined => Obj.set monthlyData month freshBucket
  | _ => monthlyData
  end.

(** [if (!counts[credential]) counts[credential] = 0; counts[credential]++] *)
Definition certify (counts : Obj.t jsnum) (credential : string)
  : Obj.t jsnum :=
  let counts1 :=
    match Obj.get counts credential with
    | Obj.Own (Num n) =>
        if n =? 0 then Obj.set counts credential (Num 0) else counts
    | Obj.Own NaN => Obj.set counts credential (Num 0)
    | Obj.Inherited _ => counts
    | Obj.Undefined => Obj.set counts credential (Num 0)
    end in
  let old :=
    match Obj.get counts1 credential with
    | Obj.Own x => x
    | _ => NaN
    end in
  Obj.set counts1 credential (numAdd old (Num 1)).

(** Lines 158-159 on the bucket of [month].  A month that only reads
    through [Object.prototype] has no [newlyCertified], and indexing
    [undefined] throws. *)
Definition addNewlyCertified (monthlyData : Obj.t Bucket)
    (month credential : string) : result (Obj.t Bucket) :=
  match Obj.get monthlyData month with
  | Obj.Own b =>
      Ok (Obj.set monthlyData month
            {| newlyCertified := certify (newlyCertified b) credential;
               lapsed := lapsed b; expired := expired b;
               ethicsViolations := ethicsViolations b |})
  | Obj.Inherited _ =>
      Throw (TypeError
        ("Cannot read properties of undefined (reading '"
           +:+ credential +:+ "')"))
  | Obj.Undefined =>
      Throw (TypeError
        "Cannot read properties of undefined (reading 'newlyCertified')")
  end.

(** [monthlyData[month].counter++] for one of the three scalar counters.
    On a month that only reads through [Object.prototype] the increment
    lands on the built-in object and leaves [monthlyData] as it is (a month
    entry has at most seven code units, so the built-in is the [valueOf]
    function). *)
Definition bump (update : Bucket -> Bucket) (monthlyData : Obj.t Bucket)
    (month : string) : result (Obj.t Bucket) :=
  match Obj.get monthlyData month with
  | Obj.Own b => Ok (Obj.set monthlyData month (update b))
  | Obj.Inherited _ => Ok monthlyData
  | Obj.Undefined =>
      Throw (TypeError "Cannot read properties of undefined")
  end.

Definition expiredPlus (b : Bucket) : Bucket :=
  {| newlyCertified := newlyCertified b; lapsed := lapsed b;
     expired := expired b + 1; ethicsViolations := ethicsViolations b |}.

Definition lapsedPlus (b : Bucket) : Bucket :=
  {| newlyCertified := newlyCertified b; lapsed := lapsed b + 1;
     expired := expired b; ethicsViolations := ethicsViolations b |}.

Definition ethicsPlus (b : Bucket) : Bucket :=
  {| newlyCertified := newlyCertified b; lapsed := lapsed b;
     expired := expired b; ethicsViolations := ethicsViolations b + 1 |}.

(** [status && status.toLowerCase().includes(word)] *)
Definition statusMentions (status : option jsvalue) (word : string) : bool :=
  match status with
  | Some (JString s) =>
      negb (String.eqb s "") && includes (toLowerCase s) word
  | _ => false
  end.

(** [status !== 'Active'] *)
Definition notActive (status : option jsvalue) : bool :=
  negb (bool_decide (status = Some (JString "Active"))).

Section TrendBuilder.

(** [new Date(text)] as far as the worker looks at it: the year and month
    it reports, [None] for an invalid date.  The worker's zone is UTC. *)
Variable newDate : string -> option Instant.

(** [new Date()] *)
Variable today : Instant.

(** [expDt.getFullYear() === today.getFullYear() &&
     expDt.getMonth() === today.getMonth()] *)
Definition sameMonth (expDate : string) : bool :=
  match newDate expDate with
  | Some expDt =>
      (getFullYear expDt =? getFullYear today)
      && (getMonth expDt =? getMonth today)
  | None => false
  end.

(** Lines 155-160: monthly new certifications. *)
Definition newCertifications (issueMonth : option string)
    (credential : string) (monthlyData : Obj.t Bucket)
  : result (Obj.t Bucket) :=
  if isMonth issueMonth
  then addNewlyCertified (ensureBucket monthlyData (monthKey issueMonth))
         (monthKey issueMonth) credential
  else Ok monthlyData.

(** Lines 170-175: expired in the current month. *)
Definition expiredThisMonth (expDate status : option jsvalue)
    (month : string) (monthlyData : Obj.t Bucket) : result (Obj.t Bucket) :=
  if sameMonth (orElse expDate "") && notActive status
  then bump expiredPlus monthlyData month
  else Ok monthlyData.

(** Lines 178-181: lapsed, by the status field. *)
Definition lapsedByStatus (status : option jsvalue) (month : string)
    (monthlyData : Obj.t Bucket) : result (Obj.t Bucket) :=
  if statusMentions status "lapsed"
  then bump lapsedPlus (ensureBucket monthlyData month) month
  else Ok monthlyData.

(** Lines 163-182: monthly lapsed and expired. *)
Definition lapsedExpired (expDate status : option jsvalue)
    (monthlyData : Obj.t Bucket) : result (Obj.t Bucket) :=
  let expirationMonth := getMonthEntry expDate in
  if isMonth expirationMonth
  then
    let month := monthKey expirationMonth in
    md ← expiredThisMonth expDate status month
            (ensureBucket monthlyData month);
    lapsedByStatus status month md
  else Ok monthlyData.

(** Lines 185-189: ethics violations. *)
Definition ethics (issueMonth : option string) (status : option jsvalue)
    (monthlyData : Obj.t Bucket) : result (Obj.t Bucket) :=
  if statusMentions status "ethics"
  then
    let violationMonth :=
      if isMonth issueMonth then issueMonth
      else getMonthEntry (Some (JString (toISOString today))) in
    bump ethicsPlus (ensureBucket monthlyData (monthKey violationMonth))
      (monthKey violationMonth)
  else Ok monthlyData.

(** The body of the [forEach] callback (lines 149-189). *)
Definition trendStep (monthlyData : Obj.t Bucket) (cert : record)
  : result (Obj.t Bucket) :=
  let issueDate := cert !! "ISSUE DATE" in
  let expDate := cert !! "EXP DATE" in
  let status := cert !! "STATUS" in
  let credential := groupKey "CREDENTIAL" cert in
  let issueMonth := getMonthEntry issueDate in
  md1 ← newCertifications issueMonth credential monthlyData;
  md2 ← lapsedExpired expDate status md1;
  ethics issueMonth status md2.

(** Lines 193-197: the keys sorted, and the buckets copied in that order
    into a new object. *)
Definition formatMonthly (monthlyData : Obj.t Bucket)
  : Obj.t (Obj.slot Bucket) :=
  let sortedMonths := stableSort defaultCompare (Obj.keys monthlyData) in
  fold_left
    (fun formattedMonthlyData month =>
       Obj.set formattedMonthlyData month (Obj.get monthlyData month))
    sortedMonths Obj.empty.

Definition buildMonthlyTrends (allCertifications : list record)
  : result (Obj.t (Obj.slot Bucket)) :=
  monthlyData ← forEach trendStep allCertifications Obj.empty;
  Ok (formatMonthly monthlyData).

End TrendBuilder.

(** A date parser for the date-only form [YYYY-MM-DD], which the language
    fixes and reads as UTC.  What an engine makes of other texts is its
    own choice: the trend builder takes the parser as a parameter, and
    this one stands in where a concrete parser is needed. *)
Definition twoDigits (a b : ascii) : option N :=
  match Obj.digitValue a, Obj.digitValue b with
  | Some x, Some y => Some (10 * x + y)%N
  | _, _ => None
  end.

Definition isLeap (y : N) : bool :=
  ((y mod 4 =? 0) && (negb (y mod 100 =? 0) || (y mod 400 =? 0)))%N.

Definition daysInMonth (y m : N) : N :=
  (if m =? 2 then (if isLeap y then 29 else 28)
   else if (m =? 4) || (m =? 6) || (m =? 9) || (m =? 11) then 30
   else 31)%N.

Definition isoDate (text : string) : option Instant :=
  match text with
  | String y1 (String y2 (String y3 (String y4 (String "-"
      (String m1 (String m2 (String "-"
        (String d1 (String d2 EmptyString))))))))) =>
      match twoDigits y1 y2, twoDigits y3 y4, twoDigits m1 m2,
            twoDigits d1 d2 with
      | Some yh, Some yl, Some m, Some d =>
          let y := (100 * yh + yl)%N in
          if ((1 <=? m) && (m <=? 12) && (1 <=? d)
              && (d <=? daysInMonth y m))%N
          then Some {| getFullYear := Z.of_N y;
                       getMonth := Z.of_N m - 1;
                       toISOString := text +:+ "T00:00:00.000Z" |}
          else None
      | _, _, _, _ => None
      end
  | _ => None
  end.

(** ** Table query ([getTableData], lines 206-257) *)

Record Params : Type := mkParams {
  draw : option string;
  start : jsnum;
  pageLength : jsnum;          (* [length] in the source *)
  searchValue : string;
  orderColumnIndex : option string;
  orderDirection : option string
}.

Record Envelope : Type := mkEnvelope {
  envDraw : option string;     (* [draw] *)
  recordsTotal : Z;
  recordsFiltered : Z;
  data : list record
}.

Definition columns : list string :=
  ["Id"; "SCRAPE ORDER"; "NAME"; "CITY"; "CREDENTIAL"; "NUMBER";
   "ISSUE DATE"; "EXP DATE"; "STATUS"; "COUNTY"; "REGION"].

(** The method names an array reads through [Array.prototype] and
    [Object.prototype]. *)
Definition arrayMethods : list string :=
  ["at"; "concat"; "copyWithin"; "fill"; "find"; "findIndex"; "findLast";
   "findLastIndex"; "lastIndexOf"; "pop"; "push"; "reverse"; "shift";
   "unshift"; "slice"; "sort"; "splice"; "includes"; "indexOf"; "join";
   "keys"; "entries"; "values"; "forEach"; "filter"; "flat"; "flatMap";
   "map"; "every"; "some"; "reduce"; "reduceRight"; "toLocaleString";
   "toString"; "toReversed"; "toSorted"; "toSpliced"; "with";
   "valueOf"; "hasOwnProperty"; "isPrototypeOf"; "propertyIsEnumerable";
   "__defineGetter__"; "__defineSetter__"; "__lookupGetter__";
   "__lookupSetter__"].

(** The element of [array] stored under the property name [key]: element
    [i] is the property named by the decimal numeral of [i]. *)
Fixpoint elementNamed (array : list string) (i : nat) (key : string)
  : option string :=
  match array with
  | [] => None
  | x :: rest =>
      if String.eqb key (pretty i) then Some x
      else elementNamed rest (S i) key
  end.

(** [columns[orderColumnIndex]], as the property name the value stands for
    when it indexes a record; [None] is [undefined].  Every other value the
    read can give (a column name, the length, a built-in) is truthy. *)
Definition columnAt (key : string) : option string :=
  match elementNamed columns 0 key with
  | Some name => Some name
  | None =>
      if String.eqb key "length" then Some (pretty (List.length columns))
      else if String.eqb key "constructor"
      then Some "function Array() { [native code] }"
      else if String.eqb key "__proto__" then Some ""
      else if existsb (String.eqb key) arrayMethods
      then Some ("function " +:+ key +:+ "() { [native code] }")
      else None
  end.

(** [Object.values(cert).some(value =>
       String(value).toLowerCase().includes(searchValue.toLowerCase()))] *)
Definition matchesSearch (searchValue : string) (cert : record) : bool :=
  existsb
    (fun value =>
       includes (toLowerCase (StringOf value)) (toLowerCase searchValue))
    (map snd (map_to_list cert)).

(** [String(a[sortColumnName] || '').toLowerCase()] *)
Definition sortText (sortColumnName : string) (a : record) : string :=
  toLowerCase (orElse (a !! sortColumnName) "").

(** The comparator handed to [sort] (lines 235-242). *)
Definition compareRecords (sortColumnName orderDirection : string)
    (a b : record) : Z :=
  let valA := sortText sortColumnName a in
  let valB := sortText sortColumnName b in
  if String.ltb valA valB
  then (if String.eqb orderDirection "asc" then -1 else 1)
  else if String.ltb valB valA
  then (if String.eqb orderDirection "asc" then 1 else -1)
  else 0.

(** [array.slice(from, to)] *)
Definition slice {A : Type} (array : list A) (from to : jsnum) : list A :=
  let len := Z.of_nat (List.length array) in
  let relativeStart := toInteger from in
  let k := if relativeStart <? 0 then Z.max (len + relativeStart) 0
           else Z.min relativeStart len in
  let relativeEnd := toInteger to in
  let final := if relativeEnd <? 0 then Z.max (len + relativeEnd) 0
               else Z.min relativeEnd len in
  take (Z.to_nat (final - k)) (drop (Z.to_nat k) array).

(** Lines 220-226. *)
Definition applySearch (searchValue : string)
    (allCertifications : list record) : list record :=
  if String.eqb searchValue "" then allCertifications
  else List.filter (matchesSearch searchValue) allCertifications.

(** Lines 229-244. *)
Definition applySort (orderColumnIndex : option string)
    (orderDirection : option string) (filteredData : list record)
  : list record :=
  match orderColumnIndex, orderDirection with
  | Some index, Some direction =>
      if String.eqb direction "" then filteredData
      else match columnAt index with
           | Some sortColumnName =>
               stableSort (compareRecords sortColumnName direction)
                 filteredData
           | None => filteredData
           end
  | _, _ => filteredData
  end.

Definition queryTable (p : Params) (allCertifications : list record)
  : Envelope :=
  let filteredData := applySearch (searchValue p) allCertifications in
  let filteredData :=
    applySort (orderColumnIndex p) (orderDirection p) filteredData in
  let totalRecords := Z.of_nat (List.length allCertifications) in
  let recordsFiltered := Z.of_nat (List.length filteredData) in
  let paginatedData :=
    slice filteredData (start p) (numAdd (start p) (pageLength p)) in
  {| envDraw := draw p;
     recordsTotal := totalRecords;
     recordsFiltered := recordsFiltered;
     data := paginatedData |}.

(** ** Promises and [async] functions *)

(** A promise, by the state it settles in. *)
Inductive promise (A : Type) : Type :=
  | Fulfilled (a : A)
  | Rejected (e : JsError).

Arguments Fulfilled {A} a.
Arguments Rejected {A} e.

(** The operand of a [return]: a plain value, or a promise handed on as it
    is. *)
Inductive returned (A : Type) : Type :=
  | Value (a : A)
  | Thenable (p : promise A).

Arguments Value {A} a.
Arguments Thenable {A} p.

(** [await p]: the value of a fulfilled promise; a rejected one throws at
    the [await]. *)
Definition await {A : Type} (p : promise A) : result A :=
  match p with
  | Fulfilled a => Ok a
  | Rejected e => Throw e
  end.

(** The promise of an [async] function whose body ends as [body]: a thrown
    error rejects it, a returned value fulfils it, a returned promise is
    adopted. *)
Definition async {A : Type} (body : result (returned A)) : promise A :=
  match body with
  | Ok (Value a) => Fulfilled a
  | Ok (Thenable p) => p
  | Throw e => Rejected e
  end.

(** [try { block } catch (error) { handler }]: the handler runs when the
    block throws. *)
Definition tryCatch {A : Type} (block : result A)
    (handler : JsError -> result A) : result A :=
  match block with
  | Ok a => Ok a
  | Throw error => handler error
  end.

(** ** Requests, responses and the upstream service *)

Record Url : Type := mkUrl {
  pathname : string;
  searchParams : list (string * string)   (* the decoded query string *)
}.

Record Request : Type := mkRequest {
  method : string;
  requestUrl : Url
}.

Record Env : Type := mkEnv {
  NOCODB_BASE_URL : string;
  NOCODB_API_TOKEN : string
}.

(** The value handed to [JSON.stringify] for the body. *)
Inductive Json : Type :=
  | JsonRecords (list : list record)
  | JsonSummary (summary : Summary)
  | JsonTrends (formattedMonthlyData : Obj.t (Obj.slot Bucket))
  | JsonTable (responseData : Envelope)
  | JsonError (error : string) (details : option string).

(** The body of a response: a value serialised by [JSON.stringify], a plain
    text, or the content of a static asset passed through. *)
Inductive Body : Type :=
  | Stringified (payload : Json)
  | PlainText (text : string)
  | AssetContent (content : string).

Record Response : Type := mkResponse {
  body : option Body;
  status : Z;
  headers : list (string * string)
}.

(** What the upstream answers: its status line, its body as text, and the
    [list] property of its body read as JSON. *)
Record Reply : Type := mkReply {
  replyStatus : Z;
  statusText : string;
  replyText : string;
  replyList : list record
}.

(** [response.ok] *)
Definition ok (response : Reply) : bool :=
  (200 <=? replyStatus response) && (replyStatus response <=? 299).

(** The global [fetch]: the address and request headers decide how the
    returned promise settles (rejected when the transport fails). *)
Definition Network : Type := string -> list (string * string) -> promise Reply.

Definition CERTIFICATIONS_TABLE_ID : string := "@u5qvrik517o".

(** [new URLSearchParams(queryParams).toString()], for names and values that
    need no escaping. *)
Fixpoint queryStringOf (queryParams : list (string * string)) : string :=
  match queryParams with
  | [] => ""
  | [(k, v)] => k +:+ "=" +:+ v
  | (k, v) :: rest => k +:+ "=" +:+ v +:+ "&" +:+ queryStringOf rest
  end.

Definition fetchFromNocoDB (fetch : Network) (env : Env) (tableId : string)
    (queryParams : list (string * string)) : promise (list record) :=
  async (
    let queryString := queryStringOf queryParams in
    let queryString :=
      if String.eqb queryString "" then queryString
      else "?" +:+ queryString in
    let nocodbUrl :=
      NOCODB_BASE_URL env +:+ tableId +:+ "/records" +:+ queryString in
    response ← await (fetch nocodbUrl [("xc-token", NOCODB_API_TOKEN env)]);
    if negb (ok response)
    then Throw (Error ("Failed to fetch from NocoDB: "
                         +:+ pretty (replyStatus response) +:+ " - "
                         +:+ statusText response +:+ " - "
                         +:+ replyText response))
    else Ok (Value (replyList response))).

Definition apiHeaders : list (string * string) :=
  [("Content-Type", "application/json");
   ("Access-Control-Allow-Origin", "*");
   ("Access-Control-Allow-Methods", "GET, POST, OPTIONS");
   ("Access-Control-Allow-Headers", "Content-Type, x-token")].

(** ** Names in scope *)

(** What a name is bound to, as far as the handlers care: a parsed URL, or
    anything else. *)
Inductive binding : Type :=
  | BoundUrl (u : Url)
  | BoundOther.

(** The bindings of the module (its constant and its functions) and the
    globals of the runtime that the module names.  The runtime has more
    globals than these; none of them is named [url]. *)
Definition moduleScope : list (string * binding) :=
  map (fun name => (name, BoundOther))
    ["CERTIFICATIONS_TABLE_ID"; "handleApiRequest"; "fetchFromNocoDB";
     "fetchAllCertifications"; "getCertificationsSummary";
     "getMonthlyTrends"; "getTableData"; "getContentType";
     "URL"; "URLSearchParams"; "Response"; "JSON"; "Object"; "String";
     "Date"; "Error"; "parseInt"; "fetch"; "console"].

Fixpoint resolve (scope : list (string * binding)) (name : string)
  : result binding :=
  match scope with
  | [] => Throw (ReferenceError (name +:+ " is not defined"))
  | (n, b) :: rest => if String.eqb name n then Ok b else resolve rest name
  end.

(** ** [parseInt] and the query parameters *)

Definition isSpace (c : ascii) : bool :=
  let n := N_of_ascii c in
  ((n =? 32) || ((9 <=? n) && (n <=? 13)) || (n =? 160))%N.

Fixpoint trimStart (s : string) : string :=
  match s with
  | String c s' => if isSpace c then trimStart s' else s
  | EmptyString => EmptyString
  end.

Definition digitOf (radix : N) (c : ascii) : option N :=
  let n := N_of_ascii c in
  let d := (if (48 <=? n) && (n <=? 57) then Some (n - 48)
            else if (97 <=? n) && (n <=? 122) then Some (n - 87)
            else if (65 <=? n) && (n <=? 90) then Some (n - 55)
            else None)%N in
  match d with
  | Some v => if (v <? radix)%N then Some v else None
  | None => None
  end.

(** The value of the longest prefix of digits, [None] when it is empty. *)
Fixpoint leadingDigits (radix : N) (acc : option N) (s : string) : option N :=
  match s with
  | String c s' =>
      match digitOf radix c with
      | Some d =>
          leadingDigits radix
            (Some (radix * (default 0%N acc) + d)%N) s'
      | None => acc
      end
  | EmptyString => acc
  end.

(** [parseInt(text)] with no radix, exact on the integers. *)
Definition parseInt (text : string) : jsnum :=
  let s := trimStart text in
  let '(sign, s) :=
    match s with
    | String "-" s' => (-1, s')
    | String "+" s' => (1, s')
    | _ => (1, s)
    end in
  let '(radix, s) :=
    match s with
    | String "0" (String "x" s') => (16%N, s')
    | String "0" (String "X" s') => (16%N, s')
    | _ => (10%N, s)
    end in
  match leadingDigits radix None s with
  | Some n => Num (sign * Z.of_N n)
  | None => NaN
  end.

(** [urlParams.get(name)] *)
Fixpoint getParam (urlParams : list (string * string)) (name : string)
  : option string :=
  match urlParams with
  | [] => None
  | (k, v) :: rest => if String.eqb name k then Some v else getParam rest name
  end.

(** [text || fallback] on what [get] returns. *)
Definition paramOr (text : option string) (fallback : string) : string :=
  match text with
  | Some s => if String.eqb s "" then fallback else s
  | None => fallback
  end.

(** Lines 206-211. *)
Definition readParams (urlParams : list (string * string)) : Params :=
  {| draw := getParam urlParams "draw";
     start := parseInt (paramOr (getParam urlParams "start") "0");
     pageLength := parseInt (paramOr (getParam urlParams "length") "10");
     searchValue := paramOr (getParam urlParams "search[value]") "";
     orderColumnIndex := getParam urlParams "order[0][column]";
     orderDirection := getParam urlParams "order[0][dir]" |}.

(** ** The endpoints and the router *)

Section Worker.

(** The runtime the worker runs in: the network behind [fetch], the date
    parser and the clock. *)
Variable fetch : Network.
Variable newDate : string -> option Instant.
Variable today : Instant.

(** [fetch(request)] as the static asset handler of the platform answers
    it. *)
Variable assets : Request -> promise Response.

Definition jsonResponse (payload : Json) (code : Z)
    (headers : list (string * string)) : Response :=
  {| body := Some (Stringified payload); status := code;
     headers := headers |}.

Definition fetchAllCertifications (request : Request) (env : Env)
    (headers : list (string * string)) : promise Response :=
  async (
    allCertifications ←
      await (fetchFromNocoDB fetch env CERTIFICATIONS_TABLE_ID
               [("limit", "10000")]);
    Ok (Value (jsonResponse (JsonRecords allCertifications) 200 headers))).

Definition getCertificationsSummary (request : Request) (env : Env)
    (headers : list (string * string)) : promise Response :=
  async (
    allCertifications ←
      await (fetchFromNocoDB fetch env CERTIFICATIONS_TABLE_ID
               [("limit", "10000")]);
    let summary := summarize allCertifications in
    Ok (Value (jsonResponse (JsonSummary summary) 200 headers))).

Definition getMonthlyTrends (request : Request) (env : Env)
    (headers : list (string * string)) : promise Response :=
  async (
    allCertifications ←
      await (fetchFromNocoDB fetch env CERTIFICATIONS_TABLE_ID
               [("limit", "10000")]);
    formattedMonthlyData ←
      buildMonthlyTrends newDate today allCertifications;
    Ok (Value (jsonResponse (JsonTrends formattedMonthlyData) 200 headers))).

(** The names [getTableData] can see: its three parameters and the module's
    scope.  The parsed URL is a parameter of [handleApiRequest] only. *)
Definition getTableDataScope : list (string * binding) :=
  ([("request", BoundOther); ("env", BoundOther); ("headers", BoundOther)]
   ++ moduleScope)%list.

Definition getTableData (request : Request) (env : Env)
    (headers : list (string * string)) : promise Response :=
  async (
    url ← resolve getTableDataScope "url";
    let urlParams :=
      match url with
      | BoundUrl u => searchParams u
      | BoundOther => []
      end in
    let p := readParams urlParams in
    allCertifications ←
      await (fetchFromNocoDB fetch env CERTIFICATIONS_TABLE_ID
               [("limit", "10000")]);
    let responseData := queryTable p allCertifications in
    Ok (Value (jsonResponse (JsonTable responseData) 200 headers))).

Definition handleApiRequest (request : Request) (url : Url) (env : Env)
  : promise Response :=
  let headers := apiHeaders in
  async (
    if String.eqb (method request) "OPTIONS"
    then Ok (Value {| body := None; status := 200; headers := headers |})
    else
      tryCatch
        (if String.eqb (pathname url) "/api/certifications"
         then Ok (Thenable (fetchAllCertifications request env headers))
         else if String.eqb (pathname url) "/api/summary"
         then Ok (Thenable (getCertificationsSummary request env headers))
         else if String.eqb (pathname url) "/api/monthly-trends"
         then Ok (Thenable (getMonthlyTrends request env headers))
         else if String.eqb (pathname url) "/api/table-data"
         then Ok (Thenable (getTableData request env headers))
         else Ok (Value (jsonResponse
                           (JsonError "API endpoint not found" None)
                           404 headers)))
        (fun error =>
           Ok (Value (jsonResponse
                        (JsonError "Internal Server Error"
                           (Some (message error)))
                        500 headers)))).

(** [fetch(`${url.origin}/index.html`)] *)
Definition indexRequest : Request :=
  {| method := "GET"; requestUrl := {| pathname := "/index.html";
                                       searchParams := [] |} |}.

(** [indexResponse.ok] *)
Definition responseOk (response : Response) : bool :=
  (200 <=? status response) && (status response <=? 299).

(** [new Response(indexResponse.body,
       { headers: { 'Content-Type': 'text/html' }, status: 200 })] *)
Definition spaFallback (indexResponse : Response) : Response :=
  {| body := body indexResponse; status := 200;
     headers := [("Content-Type", "text/html")] |}.

(** The [fetch] method of the default export (lines 7-50). *)
Definition defaultFetch (request : Request) (env : Env) : promise Response :=
  let url := requestUrl request in
  async (
    if String.prefix "/api/" (pathname url)
    then Ok (Thenable (handleApiRequest request url env))
    else
      tryCatch
        (response ← await (assets request);
         if (status response =? 404)
            && negb (String.prefix "/api/" (pathname url))
         then
           indexResponse ← await (assets indexRequest);
           if responseOk indexResponse
           then Ok (Value (spaFallback indexResponse))
           else Ok (Value response)
         else Ok (Value response))
        (fun e =>
           indexResponse ← await (assets indexRequest);
           if responseOk indexResponse
           then Ok (Value (spaFallback indexResponse))
           else Ok (Value
                  {| body := Some (PlainText "Error serving static content");
                     status := 500;
                     headers :=
                       [("Content-Type", "text/plain;charset=UTF-8")] |}))).

End Worker.

(** [pathname.endsWith(suffix)] *)
Definition endsWith (pathname suffix : string) : bool :=
  String.prefix (String.rev suffix) (String.rev pathname).

(** The content type by file extension (lines 263-273; no caller). *)
Definition getContentType (pathname : string) : string :=
  if endsWith pathname ".html" then "text/html"
  else if endsWith pathname ".css" then "text/css"
  else if endsWith pathname ".js" then "application/javascript"
  else if endsWith pathname ".json" then "application/json"
  else if endsWith pathname ".png" then "image/png"
  else if endsWith pathname ".jpg" || endsWith pathname ".jpeg"
  then "image/jpeg"
  else if endsWith pathname ".gif" then "image/gif"
  else if endsWith pathname ".svg" then "image/svg+xml"
  else "application/octet-stream".

(** ** Vocabulary of the statements, and sample inputs *)

(** The count read back from a grouping: the number stored, 0 for a name
    that is not there. *)

Definition countOf (counts : Obj.t count) (key : string) : option Z :=
  match Obj.get counts key with
  | Obj.Own (CountNum n) => Some n
  | Obj.Undefined => Some 0
  | _ => None
  end.

(** How many of [records] fall under the group [key] of [field]. *)
Definition grouped (field key : string) (records : list record) : Z :=
  Z.of_nat (List.length
    (List.filter (fun cert => String.eqb (groupKey field cert) key) records)).

Definition certConstructor : record :=
  {[ "CREDENTIAL" := JString "constructor" ]}.

Definition certProto : record :=
  {[ "CREDENTIAL" := JString "__proto__" ]}.

Definition certNoCity : record :=
  {[ "CREDENTIAL" := JString "CRS"; "COUNTY" := JNull ]}.

(** The instant 2024-06-15, as the worker observes it. *)
Definition june15 : Instant :=
  {| getFullYear := 2024; getMonth := 5;
     toISOString := "2024-06-15T00:00:00.000Z" |}.

(** A scalar counter of the bucket of [month], 0 while the bucket does not
    exist. *)
Definition readIn (counter : Bucket -> Z) (monthlyData : Obj.t Bucket)
    (month : string) : Z :=
  match Obj.own monthlyData month with
  | Some b => counter b
  | None => 0
  end.

(** A month entry that [Object.prototype] does not define. *)
Definition plainMonth (month : option string) : Prop :=
  match month with
  | Some m => Obj.objectPrototype m = None
  | None => True
  end.

Definition certExpired : record :=
  {[ "EXP DATE" := JString "2024-06-01"; "STATUS" := JString "Expired" ]}.

Definition certLapsedEthics : record :=
  {[ "EXP DATE" := JString "2023-01-09";
     "STATUS" := JString "Lapsed-Ethics" ]}.

Definition certIsoDate : record :=
  {[ "ISSUE DATE" := JString "2024-06-01" ]}.

Definition certBasicDate : record :=
  {[ "ISSUE DATE" := JString "20240601" ]}.

(** The month an ethics violation of [cert] is booked under (line 186). *)
Definition violationKey (today : Instant) (cert : record) : string :=
  let issueMonth := getMonthEntry (cert !! "ISSUE DATE") in
  monthKey (if isMonth issueMonth then issueMonth
            else getMonthEntry (Some (JString (toISOString today)))).

Definition hit (b : bool) : Z := if b then 1 else 0.

(** The order the comparator of line 235 sorts into. *)
Definition inOrder (sortColumnName orderDirection : string) (a b : record)
  : Prop :=
  if String.eqb orderDirection "asc"
  then String.leb (sortText sortColumnName a) (sortText sortColumnName b)
       = true
  else String.leb (sortText sortColumnName b) (sortText sortColumnName a)
       = true.

Definition certNameA : record :=
  {[ "NAME" := JString "A"; "STATUS" := JString "Active" ]}.

Definition certNameB : record :=
  {[ "NAME" := JString "b"; "STATUS" := JString "Active" ]}.

Definition certNullName : record :=
  {[ "NAME" := JNull; "STATUS" := JString "Active" ]}.

Definition certAnn : record :=
  {[ "NAME" := JString "Ann" ]}.

(** [draw=1&start=0&length=10&order[0][column]=2&order[0][dir]=asc] *)
Definition byNameAscending : Params :=
  {| draw := Some "1"; start := Num 0; pageLength := Num 10;
     searchValue := ""; orderColumnIndex := Some "2";
     orderDirection := Some "asc" |}.

(** [String(v)] of a field read, [undefined] included. *)
Definition rendering (v : option jsvalue) : string :=
  match v with
  | Some value => StringOf value
  | None => "undefined"
  end.

(** A text that starts like a decimal numeral: with a digit or a minus
    sign. *)
Definition startsNumeral (s : string) : bool :=
  match s with
  | String c _ =>
      existsb (Ascii.eqb c)
        ["-"; "0"; "1"; "2"; "3"; "4"; "5"; "6"; "7"; "8"; "9"]%char
  | EmptyString => false
  end.

(** How many of [records] pass [test]. *)
Definition countWhere (test : record -> bool) (records : list record) : Z :=
  Z.of_nat (List.length (List.filter test records)).

(** The conditions under which the callback counts a record in [month]
    (lines 156, 171-172, 178 and 185-186). *)
Definition certifiedIn (month credential : string) (cert : record) : bool :=
  bool_decide (getMonthEntry (cert !! "ISSUE DATE") = Some month)
  && bool_decide (groupKey "CREDENTIAL" cert = credential).

Definition expiresIn (newDate : string -> option Instant) (today : Instant)
    (month : string) (cert : record) : bool :=
  bool_decide (getMonthEntry (cert !! "EXP DATE") = Some month)
  && sameMonth newDate today (orElse (cert !! "EXP DATE") "")
  && notActive (cert !! "STATUS").

Definition lapsesIn (month : string) (cert : record) : bool :=
  bool_decide (getMonthEntry (cert !! "EXP DATE") = Some month)
  && statusMentions (cert !! "STATUS") "lapsed".

Definition violatesIn (today : Instant) (month : string) (cert : record)
  : bool :=
  statusMentions (cert !! "STATUS") "ethics"
  && bool_decide (violationKey today cert = month).

(** The number stored for [credential] in a bucket's [newlyCertified], 0
    when there is none. *)
Definition certifiedOf (counts : Obj.t jsnum) (credential : string) : Z :=
  match Obj.get counts credential with
  | Obj.Own (Num n) => n
  | _ => 0
  end.

Definition certified (credential : string) (b : Bucket) : Z :=
  certifiedOf (newlyCertified b) credential.

(** A counter of the bucket of [month] in the response, 0 when the
    response has no such bucket. *)
Definition readOut (counter : Bucket -> Z)
    (formatted : Obj.t (Obj.slot Bucket)) (month : string) : Z :=
  match Obj.own formatted month with
  | Some (Obj.Own b) => counter b
  | _ => 0
  end.

(** No own property under a name that [Object.prototype] defines. *)
Definition noInheritedKeys {V : Type} (o : Obj.t V) : Prop :=
  forall k, Obj.objectPrototype k <> None -> Obj.own o k = None.

(** The sequence the pages are cut from: the records after the filter and
    the sort of a request. *)
Definition sortedFiltered (p : Params) (allCertifications : list record)
  : list record :=
  applySort (orderColumnIndex p) (orderDirection p)
    (applySearch (searchValue p) allCertifications).

(** The request [p] asking for page [i] of pages of [n] records. *)
Definition page (p : Params) (i : nat) (n : Z) : Params :=
  {| draw := draw p;
     start := Num (Z.of_nat i * n);
     pageLength := Num n;
     searchValue := searchValue p;
     orderColumnIndex := orderColumnIndex p;
     orderDirection := orderDirection p |}.

(** Whether the callback creates the bucket of [month] for a record, if
    it is not there: the record is issued in that month, or expires in it,
    or is an ethics violation booked to it (lines 157, 165 and 187). *)
Definition touches (today : Instant) (month : string) (cert : record)
  : bool :=
  bool_decide (getMonthEntry (cert !! "ISSUE DATE") = Some month)
  || bool_decide (getMonthEntry (cert !! "EXP DATE") = Some month)
  || violatesIn today month cert.

(** The names of a list in the order of their first appearance. *)
Fixpoint distinct (names : list string) : list string :=
  match names with
  | [] => []
  | x :: rest =>
      x :: List.filter (fun y => negb (String.eqb y x)) (distinct rest)
  end.

(** The group names of [field] among [records], each once, in the order of
    first appearance; the name [__proto__] aside. *)
Definition groupNames (field : string) (records : list record)
  : list string :=
  distinct (List.filter (fun y => negb (String.eqb y "__proto__"))
              (groupKey field <$> records)).

(** ** Proof steps *)

(** The facts about a scalar counter that the counter lemmas ask for. *)
Ltac counter_facts :=
  first [ reflexivity | intros []; simpl; lia | intros [] ?; reflexivity ].

(** Settles an equation between hit counts by deciding the month tests. *)
Ltac decide_hits :=
  repeat case_decide; repeat case_bool_decide; simpl;
  first [ congruence | lia ].

(** * Properties *)

(** ** The model on sample inputs *)

Example parseInt_samples :
  parseInt "10" = Num 10 /\ parseInt " -7px" = Num (-7)
  /\ parseInt "0x1f" = Num 31 /\ parseInt "abc" = NaN /\ parseInt "" = NaN.
Proof. repeat split. Qed.

Example readParams_sample :
  readParams [("draw", "3"); ("start", "20"); ("length", "");
              ("search[value]", "crs"); ("order[0][column]", "2");
              ("order[0][dir]", "desc")]
  = {| draw := Some "3"; start := Num 20; pageLength := Num 10;
       searchValue := "crs"; orderColumnIndex := Some "2";
       orderDirection := Some "desc" |}.
Proof. reflexivity. Qed.

Example columnAt_samples :
  columnAt "0" = Some "Id" /\ columnAt "2" = Some "NAME"
  /\ columnAt "10" = Some "REGION" /\ columnAt "11" = None
  /\ columnAt "02" = None /\ columnAt "-1" = None
  /\ columnAt "length" = Some "11".
Proof. repeat split. Qed.

Example slice_samples :
  slice [1; 2; 3; 4; 5] (Num 1) (Num 3) = [2; 3]
  /\ slice [1; 2; 3; 4; 5] (Num 3) (Num 13) = [4; 5]
  /\ slice [1; 2; 3; 4; 5] (Num 7) (Num 17) = []
  /\ slice [1; 2; 3; 4; 5] (Num (-2)) (Num 8) = [4; 5]
  /\ slice [1; 2; 3; 4; 5] NaN NaN = [].
Proof. repeat split. Qed.

Example keys_sample :
  Obj.keys (V:=Z) [("2024-06", 1); ("10", 2); ("9", 3); ("007", 4)]
  = ["9"; "10"; "2024-06"; "007"].
Proof. reflexivity. Qed.

Example summarize_sample :
  summarize [certNoCity; certExpired; certNoCity]
  = {| total := 3;
       byCredential := [("CRS", CountNum 2); ("Unknown", CountNum 1)];
       byCounty := [("Unknown", CountNum 3)];
       byCity := [("Unknown", CountNum 3)] |}.
Proof. vm_compute. reflexivity. Qed.

Example trends_sample :
  buildMonthlyTrends isoDate june15 [certExpired; certLapsedEthics]
  = Ok [("2023-01",
         Obj.Own {| newlyCertified := []; lapsed := 1; expired := 0;
                    ethicsViolations := 0 |});
        ("2024-06",
         Obj.Own {| newlyCertified := []; lapsed := 0; expired := 1;
                    ethicsViolations := 1 |})].
Proof. vm_compute. reflexivity. Qed.

Example summary_endpoint_sample :
  handleApiRequest
    (fun address requestHeaders =>
       if String.eqb address
            "https://db.example/api/v2/tables/@u5qvrik517o/records?limit=10000"
       then Fulfilled (mkReply 200 "OK" "" [certNoCity])
       else Rejected (TypeError "fetch failed"))
    isoDate june15 (mkRequest "GET" (mkUrl "/api/summary" []))
    (mkUrl "/api/summary" [])
    (mkEnv "https://db.example/api/v2/tables/" "token")
  = Fulfilled (jsonResponse (JsonSummary (summarize [certNoCity])) 200
                 apiHeaders).
Proof. vm_compute. reflexivity. Qed.

(** ** Own properties *)

Lemma own_overwrite_eq {V} (o : Obj.t V) k v :
  is_Some (Obj.own o k) -> Obj.own (Obj.overwrite o k v) k = Some v.
Proof.
  induction o as [|[k' v'] o IH]; simpl; intros Hs.
  - by destruct Hs.
  - destruct (String.eqb k k') eqn:E; simpl; rewrite E; auto.
Qed.

Lemma own_overwrite_ne {V} (o : Obj.t V) k k' v :
  k <> k' -> Obj.own (Obj.overwrite o k v) k' = Obj.own o k'.
Proof.
  intros Hne. induction o as [|[k0 v0] o IH]; simpl; [done|].
  destruct (String.eqb k k0) eqn:E; simpl.
  - apply String.eqb_eq in E. subst k0.
    destruct (String.eqb k' k) eqn:E'; [|done].
    apply String.eqb_eq in E'. congruence.
  - by rewrite IH.
Qed.

Lemma own_app_None {V} (o : Obj.t V) k k' v :
  Obj.own o k' = None ->
  Obj.own (o ++ [(k, v)]) k' = if String.eqb k' k then Some v else None.
Proof.
  induction o as [|[k0 v0] o IH]; simpl; [done|].
  destruct (String.eqb k' k0); [done | auto].
Qed.

Lemma own_app_Some {V} (o : Obj.t V) k k' v w :
  Obj.own o k' = Some w -> Obj.own (o ++ [(k, v)]) k' = Some w.
Proof.
  induction o as [|[k0 v0] o IH]; simpl; [done|].
  destruct (String.eqb k' k0); auto.
Qed.

Lemma own_set_eq {V} (o : Obj.t V) k v :
  k <> "__proto__" -> Obj.own (Obj.set o k v) k = Some v.
Proof.
  intros Hk. unfold Obj.set.
  destruct (Obj.own o k) eqn:E.
  - apply own_overwrite_eq. by rewrite E.
  - apply String.eqb_neq in Hk. rewrite Hk.
    rewrite own_app_None by done. by rewrite String.eqb_refl.
Qed.

Lemma own_set_ne {V} (o : Obj.t V) k k' v :
  k <> k' -> Obj.own (Obj.set o k v) k' = Obj.own o k'.
Proof.
  intros Hne. unfold Obj.set.
  destruct (Obj.own o k) eqn:E.
  - by apply own_overwrite_ne.
  - destruct (String.eqb k "__proto__"); [done|].
    destruct (Obj.own o k') eqn:E'.
    + by erewrite own_app_Some.
    + rewrite own_app_None by done.
      destruct (String.eqb k' k) eqn:Ek; [|done].
      apply String.eqb_eq in Ek. congruence.
Qed.

Lemma get_set_ne {V} (o : Obj.t V) k k' v :
  k <> k' -> Obj.get (Obj.set o k v) k' = Obj.get o k'.
Proof. intros Hne. unfold Obj.get. by rewrite own_set_ne. Qed.

Lemma get_set_eq {V} (o : Obj.t V) k v :
  k <> "__proto__" -> Obj.get (Obj.set o k v) k = Obj.Own v.
Proof. intros Hk. unfold Obj.get. by rewrite own_set_eq. Qed.

Lemma objectPrototype_proto : Obj.objectPrototype "__proto__" <> None.
Proof. done. Qed.

Lemma not_inherited_not_proto k :
  Obj.objectPrototype k = None -> k <> "__proto__".
Proof. intros H ->. by apply objectPrototype_proto. Qed.

(** ** Strings in code-unit order *)

Lemma string_compare_le_trans s1 s2 s3 :
  String.compare s1 s2 <> Gt -> String.compare s2 s3 <> Gt ->
  String.compare s1 s3 <> Gt.
Proof.
  revert s2 s3. induction s1 as [|c1 s1 IH]; intros [|c2 s2] [|c3 s3];
    simpl; try congruence.
  unfold Ascii.compare.
  destruct (N.compare_spec (N_of_ascii c1) (N_of_ascii c2)),
    (N.compare_spec (N_of_ascii c2) (N_of_ascii c3)),
    (N.compare_spec (N_of_ascii c1) (N_of_ascii c3));
    try congruence; try lia.
  apply IH.
Qed.

Lemma leb_trans s1 s2 s3 :
  String.leb s1 s2 = true -> String.leb s2 s3 = true ->
  String.leb s1 s3 = true.
Proof.
  unfold String.leb. intros H12 H23.
  pose proof (string_compare_le_trans s1 s2 s3) as Ht.
  destruct (String.compare s1 s2), (String.compare s2 s3),
    (String.compare s1 s3); try done; exfalso; by apply Ht.
Qed.

Lemma ltb_false_leb s1 s2 :
  String.ltb s1 s2 = false -> String.leb s2 s1 = true.
Proof.
  unfold String.ltb, String.leb. rewrite (String.compare_antisym s1 s2).
  by destruct (String.compare s2 s1).
Qed.

Lemma ltb_leb s1 s2 : String.ltb s1 s2 = true -> String.leb s1 s2 = true.
Proof. unfold String.ltb, String.leb. by destruct (String.compare s1 s2). Qed.

Lemma ltb_neq s1 s2 : String.ltb s1 s2 = true -> s1 <> s2.
Proof.
  unfold String.ltb. intros H ->.
  assert (String.compare s2 s2 = Eq) as E; [|by rewrite E in H].
  pose proof (String.compare_antisym s2 s2) as Ha.
  by destruct (String.compare s2 s2).
Qed.

(** ** The stable sort *)

Section StableSortFacts.
Context {A : Type} (cmp : A -> A -> Z).

Lemma insertBy_perm x l : insertBy cmp x l ≡ₚ x :: l.
Proof.
  induction l as [|y l IH]; simpl; [done|].
  destruct (cmp x y <=? 0); [done|].
  rewrite IH. apply Permutation_swap.
Qed.

Lemma stableSort_perm l : stableSort cmp l ≡ₚ l.
Proof.
  induction l as [|x l IH]; simpl; [done|].
  by rewrite insertBy_perm, IH.
Qed.

(** Sortedness, for an order [R] that the comparator decides. *)
Context (R : A -> A -> Prop).
Hypothesis R_trans : forall x y z, R x y -> R y z -> R x z.
Hypothesis cmp_le : forall x y, cmp x y <= 0 -> R x y.
Hypothesis cmp_gt : forall x y, 0 < cmp x y -> R y x.

Lemma insertBy_sorted x l :
  StronglySorted R l -> StronglySorted R (insertBy cmp x l).
Proof.
  induction 1 as [|y l Hs IH Hall]; simpl.
  - by repeat constructor.
  - destruct (Z.leb_spec (cmp x y) 0) as [Hle|Hgt].
    + constructor; [by constructor|].
      constructor; [by apply cmp_le|].
      eapply Forall_impl; [exact Hall|].
      intros z Hz. eapply R_trans; [by apply cmp_le | done].
    + constructor; [done|].
      rewrite insertBy_perm. constructor; [by apply cmp_gt | done].
Qed.

Lemma stableSort_sorted l : StronglySorted R (stableSort cmp l).
Proof.
  induction l as [|x l IH]; simpl; [constructor|].
  by apply insertBy_sorted.
Qed.

(** Stability, for a key that elements the comparator separates do not
    share. *)
Context {K : Type} `{EqDecision K} (key : A -> K).
Hypothesis cmp_gt_key : forall x y, 0 < cmp x y -> key x <> key y.

Lemma insertBy_filter_key k x l :
  filter (fun a => key a = k) (insertBy cmp x l)
  = filter (fun a => key a = k) (x :: l).
Proof.
  induction l as [|y l IH]; simpl; [done|].
  destruct (Z.leb_spec (cmp x y) 0) as [Hle|Hgt]; [done|].
  rewrite (filter_cons _ y (insertBy cmp x l)), IH.
  rewrite !filter_cons.
  specialize (cmp_gt_key x y Hgt).
  repeat case_decide; congruence.
Qed.

Lemma stableSort_filter_key k l :
  filter (fun a => key a = k) (stableSort cmp l)
  = filter (fun a => key a = k) l.
Proof.
  induction l as [|x l IH]; simpl; [done|].
  rewrite insertBy_filter_key, !filter_cons, IH. done.
Qed.

End StableSortFacts.

(** *** The sorted, stable arrangement is unique *)

Section StableArrangement.
Context {A K : Type} `{EqDecision K} (R : A -> A -> Prop) (key : A -> K).
Hypothesis R_antisym : forall x y, R x y -> R y x -> key x = key y.

Lemma stable_filters_nil (l : list A) :
  (forall k, filter (fun a => key a = k) [] = filter (fun a => key a = k) l) ->
  l = [].
Proof.
  destruct l as [|y l]; [done|]. intros H. specialize (H (key y)).
  rewrite filter_cons_True in H by done. done.
Qed.

(** Two arrangements that are both sorted and agree, key by key, on the
    order of the elements with that key are the same list. *)
Lemma stable_sorted_unique (l1 l2 : list A) :
  StronglySorted R l1 -> StronglySorted R l2 ->
  (forall k, filter (fun a => key a = k) l1 = filter (fun a => key a = k) l2) ->
  l1 = l2.
Proof.
  intros Hs1. revert l2.
  induction Hs1 as [|x l1 Hs1 IH Hall1]; intros l2 Hs2 Hf.
  { symmetry. by apply stable_filters_nil. }
  destruct Hs2 as [|y l2 Hs2 Hall2].
  { exfalso. specialize (Hf (key x)).
    rewrite filter_cons_True in Hf by done. done. }
  assert (key x = key y) as Hk.
  { assert (x ∈ y :: l2) as Hx.
    { pose proof (Hf (key x)) as H. rewrite filter_cons_True in H by done.
      assert (x ∈ filter (fun a => key a = key x) (y :: l2)) as Hin
        by (rewrite <- H; left).
      by apply list_elem_of_filter in Hin as [_ Hin]. }
    assert (y ∈ x :: l1) as Hy.
    { pose proof (Hf (key y)) as H.
      rewrite (filter_cons_True _ y) in H by done.
      assert (y ∈ filter (fun a => key a = key y) (x :: l1)) as Hin
        by (rewrite H; left).
      by apply list_elem_of_filter in Hin as [_ Hin]. }
    apply elem_of_cons in Hx as [->|Hx]; [done|].
    apply elem_of_cons in Hy as [->|Hy]; [done|].
    rewrite Forall_forall in Hall1, Hall2.
    apply R_antisym; auto. }
  assert (x = y) as ->.
  { pose proof (Hf (key x)) as H.
    rewrite filter_cons_True in H by done.
    rewrite (filter_cons_True _ y) in H by done. congruence. }
  f_equal. apply IH; [done|]. intros k. specialize (Hf k).
  rewrite !filter_cons in Hf. case_decide; congruence.
Qed.

End StableArrangement.

(** ** Keys of an object built by assignments *)

Lemma keys_overwrite {V} (o : Obj.t V) k v :
  (Obj.overwrite o k v).*1 = o.*1.
Proof.
  induction o as [|[k' v'] o IH]; simpl; [done|].
  destruct (String.eqb k k'); simpl; [done|]. f_equal. apply IH.
Qed.

Lemma own_None_keys {V} (o : Obj.t V) k : Obj.own o k = None -> k ∉ o.*1.
Proof.
  induction o as [|[k' v'] o IH]; simpl; [intros _; apply not_elem_of_nil|].
  destruct (String.eqb_spec k k') as [->|Hne]; [done|].
  intros H. apply not_elem_of_cons. auto.
Qed.

(** An assignment keeps the keys, or adds the assigned one at the end. *)
Lemma keys_set {V} (o : Obj.t V) k v :
  (Obj.set o k v).*1 = o.*1
  \/ ((k ∉ o.*1) /\ (Obj.set o k v).*1 = o.*1 ++ [k]).
Proof.
  unfold Obj.set. destruct (Obj.own o k) eqn:E.
  - left. apply keys_overwrite.
  - destruct (String.eqb k "__proto__"); [by left|].
    right. split; [by apply own_None_keys|].
    by rewrite fmap_app.
Qed.

Lemma keys_fold_set {V} (f : string -> V) (l : list string) (o : Obj.t V) :
  exists l',
    (fold_left (fun acc k => Obj.set acc k (f k)) l o).*1 = o.*1 ++ l'
    /\ l' `sublist_of` l.
Proof.
  revert o. induction l as [|k l IH]; intros o; simpl.
  - exists []. by rewrite app_nil_r.
  - destruct (IH (Obj.set o k (f k))) as (l' & -> & Hsub).
    destruct (keys_set o k (f k)) as [-> | [_ ->]].
    + exists l'. split; [done|]. by apply sublist_cons.
    + exists (k :: l'). rewrite <- app_assoc. split; [done|].
      by apply sublist_skip.
Qed.

Lemma NoDup_keys_fold_set {V} (f : string -> V) (l : list string)
    (o : Obj.t V) :
  NoDup o.*1 -> NoDup (fold_left (fun acc k => Obj.set acc k (f k)) l o).*1.
Proof.
  revert o. induction l as [|k l IH]; intros o Ho; simpl; [done|].
  apply IH. destruct (keys_set o k (f k)) as [-> | [Hk ->]]; [done|].
  apply NoDup_app. split; [done|]. split.
  - intros x Hx ->%list_elem_of_singleton. done.
  - apply NoDup_singleton.
Qed.

Lemma StronglySorted_sublist {A} (R : A -> A -> Prop) (l1 l2 : list A) :
  l1 `sublist_of` l2 -> StronglySorted R l2 -> StronglySorted R l1.
Proof.
  induction 1 as [|x l1 l2 Hsub IH|x l1 l2 Hsub IH]; intros Hs.
  - constructor.
  - apply StronglySorted_inv in Hs as [Hs Hall]. constructor; [auto|].
    rewrite Forall_forall in *. intros y Hy. apply Hall.
    by eapply elem_of_sublist.
  - apply StronglySorted_inv in Hs as [Hs _]. auto.
Qed.

Lemma filter_sublist {A} (f : A -> bool) (l : list A) :
  List.filter f l `sublist_of` l.
Proof.
  induction l as [|x l IH]; simpl; [constructor|].
  destruct (f x); by constructor.
Qed.

Lemma StronglySorted_strict (l : list string) :
  NoDup l ->
  StronglySorted (fun a b => String.leb a b = true) l ->
  StronglySorted (fun a b => String.ltb a b = true) l.
Proof.
  induction 2 as [|x l Hs IH Hall]; [constructor|].
  apply NoDup_cons in H as [Hx Hl]. constructor; [auto|].
  rewrite Forall_forall in *. intros y Hy.
  specialize (Hall y Hy). revert Hall. unfold String.leb, String.ltb.
  destruct (String.compare x y) eqn:E; try done.
  apply String.compare_eq_iff in E. by subst y.
Qed.

Lemma defaultCompare_le x y :
  defaultCompare x y <= 0 -> String.leb x y = true.
Proof.
  unfold defaultCompare.
  destruct (String.ltb x y) eqn:E; [intros _; by apply ltb_leb|].
  destruct (String.ltb y x) eqn:E'; [lia|].
  intros _. by apply ltb_false_leb.
Qed.

Lemma defaultCompare_gt x y :
  0 < defaultCompare x y -> String.leb y x = true.
Proof.
  unfold defaultCompare.
  destruct (String.ltb x y) eqn:E; [lia|].
  intros _. by apply ltb_false_leb.
Qed.

Lemma compareIndexKeys_le x y :
  Obj.compareIndexKeys x y <= 0 -> (Obj.indexValue x <= Obj.indexValue y)%N.
Proof.
  unfold Obj.compareIndexKeys, Obj.indexCompare.
  destruct (N.ltb_spec (Obj.indexValue x) (Obj.indexValue y)); [lia|].
  destruct (N.ltb_spec (Obj.indexValue y) (Obj.indexValue x)); lia.
Qed.

Lemma compareIndexKeys_gt x y :
  0 < Obj.compareIndexKeys x y -> (Obj.indexValue y <= Obj.indexValue x)%N.
Proof.
  unfold Obj.compareIndexKeys, Obj.indexCompare.
  destruct (N.ltb_spec (Obj.indexValue x) (Obj.indexValue y)); [lia|].
  destruct (N.ltb_spec (Obj.indexValue y) (Obj.indexValue x)); lia.
Qed.

Lemma filter_all_false {A} (f : A -> bool) (l : list A) :
  Forall (fun x => f x = false) l -> List.filter f l = [].
Proof.
  induction 1 as [|x l Hx _ IH]; simpl; [done|]. by rewrite Hx.
Qed.

Lemma filter_all_true {A} (f : A -> bool) (l : list A) :
  Forall (fun x => f x = true) l -> List.filter f l = l.
Proof.
  induction 1 as [|x l Hx _ IH]; simpl; [done|]. by rewrite Hx, IH.
Qed.

(** ** The aggregator *)

Lemma fold_countCert_total l s :
  total (fold_left countCert l s) = total s.
Proof. revert s. induction l as [|c l IH]; intros s; simpl; [done|]. by rewrite IH. Qed.

Lemma summarize_total records :
  total (summarize records) = Z.of_nat (List.length records).
Proof. unfold summarize. by rewrite fold_countCert_total. Qed.

Lemma fold_countCert_byCredential l s :
  byCredential (fold_left countCert l s)
  = fold_left (fun c cert => increment c (groupKey "CREDENTIAL" cert)) l
      (byCredential s).
Proof. revert s. induction l as [|c l IH]; intros s; simpl; [done|]. by rewrite IH. Qed.

Lemma fold_countCert_byCounty l s :
  byCounty (fold_left countCert l s)
  = fold_left (fun c cert => increment c (groupKey "COUNTY" cert)) l
      (byCounty s).
Proof. revert s. induction l as [|c l IH]; intros s; simpl; [done|]. by rewrite IH. Qed.

Lemma fold_countCert_byCity l s :
  byCity (fold_left countCert l s)
  = fold_left (fun c cert => increment c (groupKey "CITY" cert)) l
      (byCity s).
Proof. revert s. induction l as [|c l IH]; intros s; simpl; [done|]. by rewrite IH. Qed.

(** A group name that [Object.prototype] does not define is counted
    exactly: its count moves up by one, every other count stays. *)
Lemma countOf_increment counts key key' n :
  Obj.objectPrototype key' = None ->
  countOf counts key' = Some n ->
  countOf (increment counts key) key'
  = Some (if String.eqb key key' then n + 1 else n).
Proof.
  intros Hp Hn. unfold increment.
  destruct (String.eqb key key') eqn:E.
  - apply String.eqb_eq in E. subst key'.
    unfold countOf. rewrite get_set_eq by by apply not_inherited_not_proto.
    unfold countOf, Obj.get in *. rewrite Hp in *.
    destruct (Obj.own counts key) as [[m|s]|]; simpl; simplify_eq; done.
  - apply String.eqb_neq in E. unfold countOf in *. by rewrite get_set_ne.
Qed.

Lemma countOf_fold field key counts records n :
  Obj.objectPrototype key = None ->
  countOf counts key = Some n ->
  countOf (fold_left (fun c cert => increment c (groupKey field cert))
             records counts) key
  = Some (n + grouped field key records).
Proof.
  intros Hp. revert counts n.
  induction records as [|cert l IH]; intros counts n Hn; simpl.
  - unfold grouped. simpl. by rewrite Z.add_0_r.
  - erewrite IH; [|by apply countOf_increment].
    unfold grouped. simpl.
    destruct (String.eqb (groupKey field cert) key); simpl; f_equal; lia.
Qed.

Lemma groupKey_missing field (cert : record) :
  cert !! field = None \/ cert !! field = Some JNull ->
  groupKey field cert = "Unknown".
Proof. unfold groupKey. by intros [-> | ->]. Qed.

Lemma sumCounts_app counts key n s :
  sumCounts counts = Some s ->
  sumCounts (counts ++ [(key, CountNum n)]) = Some (s + n).
Proof.
  revert s. induction counts as [|[k [m|t]] counts IH]; intros s; simpl.
  - intros [= <-]. f_equal. lia.
  - destruct (sumCounts counts) as [s'|] eqn:E; simpl; [|done].
    intros [= <-]. rewrite (IH s') by done. simpl. f_equal. lia.
  - done.
Qed.

Lemma sumCounts_overwrite counts key n m s :
  Obj.own counts key = Some (CountNum n) ->
  sumCounts counts = Some s ->
  sumCounts (Obj.overwrite counts key (CountNum m)) = Some (s - n + m).
Proof.
  revert s. induction counts as [|[k [x|t]] counts IH]; intros s; simpl;
    [done| |done].
  destruct (String.eqb key k) eqn:E; simpl.
  - intros [= ->]. destruct (sumCounts counts) as [s'|]; simpl; [|done].
    intros [= <-]. f_equal. lia.
  - intros Hown. destruct (sumCounts counts) as [s'|] eqn:Es; simpl; [|done].
    intros [= <-]. rewrite (IH s') by done. simpl. f_equal. lia.
Qed.

Lemma sumCounts_own_text counts key t s :
  Obj.own counts key = Some (CountText t) -> sumCounts counts = Some s -> False.
Proof.
  revert s. induction counts as [|[k [x|u]] counts IH]; intros s; simpl;
    [done| |done].
  destruct (String.eqb key k); [done|].
  intros Hown. destruct (sumCounts counts) as [s'|] eqn:Es; simpl; [|done].
  intros _. by eapply IH.
Qed.

(** Counting under a name that is not inherited adds one to the sum. *)
Lemma sumCounts_increment counts key s :
  Obj.objectPrototype key = None ->
  sumCounts counts = Some s ->
  sumCounts (increment counts key) = Some (s + 1).
Proof.
  intros Hp Hs. unfold increment, Obj.set, Obj.get. rewrite Hp.
  destruct (Obj.own counts key) as [[n|t]|] eqn:E; simpl.
  - rewrite (sumCounts_overwrite _ _ n (n + 1) s) by done. f_equal. lia.
  - exfalso. by eapply sumCounts_own_text.
  - apply not_inherited_not_proto in Hp. apply String.eqb_neq in Hp.
    rewrite Hp. by apply sumCounts_app.
Qed.

Lemma sumCounts_fold field records counts s :
  Forall (fun cert => Obj.objectPrototype (groupKey field cert) = None)
    records ->
  sumCounts counts = Some s ->
  sumCounts (fold_left (fun c cert => increment c (groupKey field cert))
               records counts)
  = Some (s + Z.of_nat (List.length records)).
Proof.
  intros Hall. revert counts s.
  induction Hall as [|cert l Hc Hl IH]; intros counts s Hs; simpl.
  - rewrite Hs. f_equal. lia.
  - rewrite (IH _ (s + 1)); [f_equal; lia|].
    by apply sumCounts_increment.
Qed.

(** X1: when no group name of the records is a name that
    [Object.prototype] defines, the total and the sum of the counts of each
    grouping are the number of records. *)
Theorem summarize_sums_plain_names (records : list record) :
  Forall (fun cert =>
            Obj.objectPrototype (groupKey "CREDENTIAL" cert) = None
            /\ Obj.objectPrototype (groupKey "COUNTY" cert) = None
            /\ Obj.objectPrototype (groupKey "CITY" cert) = None) records ->
  total (summarize records) = Z.of_nat (List.length records)
  /\ sumCounts (byCredential (summarize records))
     = Some (Z.of_nat (List.length records))
  /\ sumCounts (byCounty (summarize records))
     = Some (Z.of_nat (List.length records))
  /\ sumCounts (byCity (summarize records))
     = Some (Z.of_nat (List.length records)).
Proof.
  intros Hall. split; [apply summarize_total|].
  unfold summarize.
  rewrite fold_countCert_byCredential, fold_countCert_byCounty,
    fold_countCert_byCity. simpl.
  repeat split.
  - rewrite (sumCounts_fold _ _ _ 0); [done| |done].
    eapply Forall_impl; [exact Hall|]. by intros ? (? & ? & ?).
  - rewrite (sumCounts_fold _ _ _ 0); [done| |done].
    eapply Forall_impl; [exact Hall|]. by intros ? (? & ? & ?).
  - rewrite (sumCounts_fold _ _ _ 0); [done| |done].
    eapply Forall_impl; [exact Hall|]. by intros ? (? & ? & ?).
Qed.

Lemma summarize_sums_plain_names_witness :
  total (summarize [certNoCity; certExpired; certNoCity]) = 3
  /\ sumCounts (byCredential (summarize [certNoCity; certExpired; certNoCity]))
     = Some 3
  /\ sumCounts (byCounty (summarize [certNoCity; certExpired; certNoCity]))
     = Some 3
  /\ sumCounts (byCity (summarize [certNoCity; certExpired; certNoCity]))
     = Some 3.
Proof.
  apply (summarize_sums_plain_names [certNoCity; certExpired; certNoCity]).
  repeat constructor.
Defined.

(** C1, at records the code miscounts.  The claim: for every record
    sequence the total and, in each grouping, the sum of the counts equal
    the number of records.  The total does, but a record whose CREDENTIAL
    is [constructor] reads the inherited [Object] function where the
    counter should be: the stored "count" is a text and no sum of counts
    exists; under [__proto__] nothing is stored at all and the counts sum
    to 0 for one record. *)
Theorem summarize_inherited_group_name :
  total (summarize [certConstructor]) = 1
  /\ byCredential (summarize [certConstructor])
     = [("constructor", CountText "function Object() { [native code] }1")]
  /\ sumCounts (byCredential (summarize [certConstructor])) = None
  /\ total (summarize [certProto]) = 1
  /\ byCredential (summarize [certProto]) = []
  /\ sumCounts (byCredential (summarize [certProto])) = Some 0.
Proof. vm_compute. repeat split. Qed.

(** C8: for every record sequence, the count stored under ["Unknown"] in
    each grouping is the number of records whose group name for that field
    is ["Unknown"], and a record whose field is absent or null is one of
    them. *)
Theorem missing_fields_counted_as_unknown (records : list record) :
  (forall (field : string) (cert : record),
      cert !! field = None \/ cert !! field = Some JNull ->
      groupKey field cert = "Unknown")
  /\ countOf (byCredential (summarize records)) "Unknown"
     = Some (grouped "CREDENTIAL" "Unknown" records)
  /\ countOf (byCounty (summarize records)) "Unknown"
     = Some (grouped "COUNTY" "Unknown" records)
  /\ countOf (byCity (summarize records)) "Unknown"
     = Some (grouped "CITY" "Unknown" records).
Proof.
  split; [apply groupKey_missing|].
  unfold summarize.
  rewrite fold_countCert_byCredential, fold_countCert_byCounty,
    fold_countCert_byCity. simpl.
  repeat split; by rewrite (countOf_fold _ _ _ _ 0).
Qed.

Lemma missing_fields_counted_as_unknown_witness :
  groupKey "CITY" certNoCity = "Unknown"
  /\ groupKey "COUNTY" certNoCity = "Unknown"
  /\ countOf (byCity (summarize [certNoCity; certConstructor])) "Unknown"
     = Some 2
  /\ countOf (byCounty (summarize [certNoCity; certConstructor])) "Unknown"
     = Some 2.
Proof.
  destruct (missing_fields_counted_as_unknown [certNoCity; certConstructor])
    as (Hkey & _ & Hcounty & Hcity).
  split; [apply Hkey; left; reflexivity|].
  split; [apply Hkey; right; reflexivity|].
  split; [exact Hcity | exact Hcounty].
Defined.

(** ** The trend builder *)

Lemma getMonthEntry_nonempty v m : getMonthEntry v = Some m -> m <> "".
Proof.
  destruct v as [[|s]|]; simpl; try done.
  destruct s as [|c s]; simpl; [done|].
  intros [= <-]. done.
Qed.

Lemma isMonth_getMonthEntry v m : getMonthEntry v = Some m -> isMonth (Some m) = true.
Proof.
  intros H%getMonthEntry_nonempty. simpl.
  apply String.eqb_neq in H. by rewrite H.
Qed.

Lemma get_ensureBucket md m :
  Obj.objectPrototype m = None ->
  exists b, Obj.get (ensureBucket md m) m = Obj.Own b
            /\ forall counter, counter freshBucket = 0 ->
                               counter b = readIn counter md m.
Proof.
  intros Hp. unfold ensureBucket, readIn, Obj.get. rewrite Hp.
  destruct (Obj.own md m) as [b|] eqn:E.
  - rewrite E. eauto.
  - rewrite own_set_eq by by apply not_inherited_not_proto. eauto.
Qed.

Lemma readIn_set_eq counter md m b :
  m <> "__proto__" -> readIn counter (Obj.set md m b) m = counter b.
Proof. intros Hm. unfold readIn. by rewrite own_set_eq. Qed.

Lemma readIn_set_ne counter md m k b :
  m <> k -> readIn counter (Obj.set md m b) k = readIn counter md k.
Proof. intros Hm. unfold readIn. by rewrite own_set_ne. Qed.

Lemma readIn_ensureBucket counter md m k :
  counter freshBucket = 0 ->
  readIn counter (ensureBucket md m) k = readIn counter md k.
Proof.
  intros H0. unfold ensureBucket, Obj.get.
  destruct (Obj.own md m) eqn:E; [done|].
  destruct (Obj.objectPrototype m) eqn:Hp; [done|].
  destruct (decide (m = k)) as [<-|Hne].
  - rewrite readIn_set_eq by by apply not_inherited_not_proto.
    unfold readIn. by rewrite E.
  - by apply readIn_set_ne.
Qed.

(** Writing back a bucket leaves the counters of the other months alone,
    and gives the month the counter of the bucket written. *)
Lemma readIn_set counter md m k b :
  m <> "__proto__" ->
  readIn counter (Obj.set md m b) k
  = if decide (m = k) then counter b else readIn counter md k.
Proof.
  intros Hm. case_decide as E.
  - subst k. by apply readIn_set_eq.
  - by apply readIn_set_ne.
Qed.

(** The issue-date part of the callback on a plain month: it does not
    throw and touches none of the scalar counters. *)
Lemma addNewlyCertified_plain md m credential :
  Obj.objectPrototype m = None ->
  exists md', addNewlyCertified (ensureBucket md m) m credential = Ok md'
    /\ forall counter k,
         counter freshBucket = 0 ->
         (forall b c, counter (mkBucket c (lapsed b) (expired b)
                                 (ethicsViolations b)) = counter b) ->
         readIn counter md' k = readIn counter md k.
Proof.
  intros Hp. destruct (get_ensureBucket md m Hp) as (b & Hget & Hb).
  unfold addNewlyCertified. rewrite Hget. eexists. split; [done|].
  intros counter k H0 Hc.
  rewrite readIn_set by by apply not_inherited_not_proto.
  case_decide as E.
  - subst k. rewrite Hc. by apply Hb.
  - by apply readIn_ensureBucket.
Qed.

Lemma bump_plain update md m :
  Obj.objectPrototype m = None ->
  exists b, bump update (ensureBucket md m) m
            = Ok (Obj.set (ensureBucket md m) m (update b))
            /\ forall counter, counter freshBucket = 0 ->
                               counter b = readIn counter md m.
Proof.
  intros Hp. destruct (get_ensureBucket md m Hp) as (b & Hget & Hb).
  unfold bump. rewrite Hget. eauto.
Qed.

Lemma bump_ensured update md m :
  Obj.objectPrototype m = None ->
  exists md', bump update (ensureBucket md m) m = Ok md'
    /\ forall counter delta k,
         counter freshBucket = 0 ->
         (forall b, counter (update b) = counter b + delta) ->
         readIn counter md' k
         = readIn counter md k + (if decide (m = k) then delta else 0).
Proof.
  intros Hp. destruct (bump_plain update md m Hp) as (b & Hb & Hread).
  eexists. split; [exact Hb|].
  intros counter delta k H0 Hd.
  rewrite readIn_set by by apply not_inherited_not_proto.
  case_decide as E.
  - subst k. rewrite Hd. by rewrite Hread.
  - rewrite readIn_ensureBucket by done. lia.
Qed.

Lemma ensureBucket_idem md m :
  ensureBucket (ensureBucket md m) m = ensureBucket md m.
Proof.
  unfold ensureBucket at 1.
  destruct (Obj.get (ensureBucket md m) m) eqn:E; try done.
  exfalso. revert E. unfold ensureBucket, Obj.get.
  destruct (Obj.own md m) eqn:Eo; [by rewrite Eo|].
  destruct (Obj.objectPrototype m) eqn:Ep; [by rewrite Eo|].
  by rewrite own_set_eq by by apply not_inherited_not_proto.
Qed.

Lemma newCertifications_plain issueMonth credential md :
  (forall m, issueMonth = Some m -> m <> "") ->
  plainMonth issueMonth ->
  exists md1, newCertifications issueMonth credential md = Ok md1
    /\ forall k, readIn expired md1 k = readIn expired md k
              /\ readIn lapsed md1 k = readIn lapsed md k
              /\ readIn ethicsViolations md1 k = readIn ethicsViolations md k.
Proof.
  intros Hne Hp. unfold newCertifications.
  destruct issueMonth as [mi|]; simpl in *; [|eauto].
  specialize (Hne mi eq_refl). apply String.eqb_neq in Hne. rewrite Hne. simpl.
  destruct (addNewlyCertified_plain md mi credential Hp) as (md1 & -> & Hc).
  exists md1. split; [done|]. intros k.
  repeat split; apply Hc; counter_facts.
Qed.

Lemma expiredThisMonth_plain newDate today expDate status m md :
  Obj.objectPrototype m = None ->
  exists mdx,
    expiredThisMonth newDate today expDate status m (ensureBucket md m) = Ok mdx
    /\ ensureBucket mdx m = mdx
    /\ forall k,
      readIn expired mdx k
      = readIn expired md k
        + hit (bool_decide (m = k)
               && sameMonth newDate today (orElse expDate "")
               && notActive status)
      /\ readIn lapsed mdx k = readIn lapsed md k
      /\ readIn ethicsViolations mdx k = readIn ethicsViolations md k.
Proof.
  intros Hp. unfold expiredThisMonth.
  destruct (sameMonth newDate today (orElse expDate "") && notActive status)
    eqn:Ec.
  - destruct (get_ensureBucket md m Hp) as (b & Hget & _).
    destruct (bump_ensured expiredPlus md m Hp) as (mdx & Hb & Hc).
    exists mdx. split; [done|]. split.
    { revert Hb. unfold bump. rewrite Hget. intros [= <-].
      unfold ensureBucket at 1.
      by rewrite get_set_eq by by apply not_inherited_not_proto. }
    intros k. rewrite <- andb_assoc, Ec, andb_true_r.
    rewrite (Hc expired 1 k), (Hc lapsed 0 k),
      (Hc ethicsViolations 0 k) by counter_facts.
    decide_hits.
  - exists (ensureBucket md m). split; [done|].
    split; [apply ensureBucket_idem|].
    intros k. rewrite <- andb_assoc, Ec, andb_false_r. simpl.
    rewrite !readIn_ensureBucket by done. lia.
Qed.

Lemma lapsedByStatus_plain status m md :
  Obj.objectPrototype m = None ->
  exists md2, lapsedByStatus status m md = Ok md2
    /\ forall k,
      readIn expired md2 k = readIn expired md k
      /\ readIn lapsed md2 k
         = readIn lapsed md k
           + hit (bool_decide (m = k) && statusMentions status "lapsed")
      /\ readIn ethicsViolations md2 k = readIn ethicsViolations md k.
Proof.
  intros Hp. unfold lapsedByStatus.
  destruct (statusMentions status "lapsed").
  - destruct (bump_ensured lapsedPlus md m Hp) as (md2 & -> & Hc).
    exists md2. split; [done|]. intros k.
    rewrite (Hc expired 0 k), (Hc lapsed 1 k),
      (Hc ethicsViolations 0 k) by counter_facts.
    rewrite andb_true_r. decide_hits.
  - exists md. split; [done|]. intros k.
    rewrite andb_false_r. simpl. lia.
Qed.

Lemma lapsedExpired_plain newDate today expDate status md :
  plainMonth (getMonthEntry expDate) ->
  exists md2, lapsedExpired newDate today expDate status md = Ok md2
    /\ forall k,
      readIn expired md2 k
      = readIn expired md k
        + hit (bool_decide (getMonthEntry expDate = Some k)
               && sameMonth newDate today (orElse expDate "")
               && notActive status)
      /\ readIn lapsed md2 k
         = readIn lapsed md k
           + hit (bool_decide (getMonthEntry expDate = Some k)
                  && statusMentions status "lapsed")
      /\ readIn ethicsViolations md2 k = readIn ethicsViolations md k.
Proof.
  intros Hp. unfold lapsedExpired.
  destruct (getMonthEntry expDate) as [me|] eqn:Ee.
  2:{ exists md. split; [done|]. intros k.
      rewrite !bool_decide_eq_false_2 by done. simpl. lia. }
  rewrite (isMonth_getMonthEntry _ _ Ee). simpl in *.
  destruct (expiredThisMonth_plain newDate today expDate status me md Hp)
    as (mdx & -> & _ & Hx).
  simpl.
  destruct (lapsedByStatus_plain status me mdx Hp) as (md2 & -> & Hl).
  exists md2. split; [done|]. intros k.
  destruct (Hx k) as (X1 & X2 & X3). destruct (Hl k) as (L1 & L2 & L3).
  rewrite L1, L2, L3, X1, X2, X3.
  repeat split; try done.
  - do 2 f_equal. do 2 f_equal. apply bool_decide_ext. split; congruence.
  - do 2 f_equal. f_equal. apply bool_decide_ext. split; congruence.
Qed.

Lemma ethics_plain today (cert : record) md :
  Obj.objectPrototype (violationKey today cert) = None ->
  exists md3,
    ethics today (getMonthEntry (cert !! "ISSUE DATE")) (cert !! "STATUS") md
    = Ok md3
    /\ forall k,
      readIn expired md3 k = readIn expired md k
      /\ readIn lapsed md3 k = readIn lapsed md k
      /\ readIn ethicsViolations md3 k
         = readIn ethicsViolations md k
           + hit (statusMentions (cert !! "STATUS") "ethics"
                  && bool_decide (violationKey today cert = k)).
Proof.
  intros Hv. unfold ethics. fold (violationKey today cert).
  destruct (statusMentions (cert !! "STATUS") "ethics").
  - destruct (bump_ensured ethicsPlus md (violationKey today cert) Hv)
      as (md3 & -> & Hc).
    exists md3. split; [done|]. intros k.
    rewrite (Hc expired 0 k), (Hc lapsed 0 k),
      (Hc ethicsViolations 1 k) by counter_facts.
    simpl. decide_hits.
  - exists md. split; [done|]. intros k. simpl. lia.
Qed.

(** What one record does to the three scalar counters, when its month
    entries are plain names: the callback does not throw, and each counter
    of each month moves by 0 or 1 as the source's conditions say. *)
Lemma trendStep_plain newDate today md (cert : record) :
  plainMonth (getMonthEntry (cert !! "ISSUE DATE")) ->
  plainMonth (getMonthEntry (cert !! "EXP DATE")) ->
  Obj.objectPrototype (violationKey today cert) = None ->
  exists md', trendStep newDate today md cert = Ok md'
    /\ forall k,
      readIn expired md' k
      = readIn expired md k
        + hit (bool_decide (getMonthEntry (cert !! "EXP DATE") = Some k)
               && sameMonth newDate today (orElse (cert !! "EXP DATE") "")
               && notActive (cert !! "STATUS"))
      /\ readIn lapsed md' k
         = readIn lapsed md k
           + hit (bool_decide (getMonthEntry (cert !! "EXP DATE") = Some k)
                  && statusMentions (cert !! "STATUS") "lapsed")
      /\ readIn ethicsViolations md' k
         = readIn ethicsViolations md k
           + hit (statusMentions (cert !! "STATUS") "ethics"
                  && bool_decide (violationKey today cert = k)).
Proof.
  intros Hi He Hv. unfold trendStep.
  destruct (newCertifications_plain (getMonthEntry (cert !! "ISSUE DATE"))
              (groupKey "CREDENTIAL" cert) md) as (md1 & -> & H1); [|done|].
  { intros m. apply getMonthEntry_nonempty. }
  simpl.
  destruct (lapsedExpired_plain newDate today (cert !! "EXP DATE")
              (cert !! "STATUS") md1 He) as (md2 & -> & H2).
  simpl.
  destruct (ethics_plain today cert md2 Hv) as (md3 & -> & H3).
  exists md3. split; [done|]. intros k.
  destruct (H1 k) as (A1 & A2 & A3). destruct (H2 k) as (B1 & B2 & B3).
  destruct (H3 k) as (C1 & C2 & C3).
  rewrite C1, C2, C3, B1, B2, B3, A1, A2, A3. done.
Qed.

Lemma violationKey_cases today (cert : record) :
  (forall m, getMonthEntry (cert !! "ISSUE DATE") = Some m ->
             violationKey today cert = m)
  /\ (getMonthEntry (cert !! "ISSUE DATE") = None ->
      violationKey today cert
      = monthKey (getMonthEntry (Some (JString (toISOString today))))).
Proof.
  unfold violationKey. split.
  - intros m Hm. rewrite Hm. by rewrite (isMonth_getMonthEntry _ _ Hm).
  - by intros ->.
Qed.

Lemma violationKey_june15_plain (cert : record) :
  plainMonth (getMonthEntry (cert !! "ISSUE DATE")) ->
  Obj.objectPrototype (violationKey june15 cert) = None.
Proof.
  intros Hp. destruct (violationKey_cases june15 cert) as [Hs Hn].
  destruct (getMonthEntry (cert !! "ISSUE DATE")) as [m|] eqn:E.
  - by rewrite (Hs m).
  - by rewrite Hn.
Qed.

(** C4: with the clock at 2024-06-15 and a parser that reads the ISO date
    2024-06-01 as the language prescribes, a record with EXP DATE
    "2024-06-01" and STATUS "Expired" adds one to [expired] of bucket
    "2024-06"; a record with STATUS "Lapsed-Ethics" adds one to [lapsed] of
    its expiration month and one to [ethicsViolations] of its issue month,
    or of "2024-06" when it has no issue date.  This holds from every state
    of [monthlyData], for records whose month entries are plain names. *)
Theorem june_expired_and_lapsed_ethics
    (newDate : string -> option Instant) (md : Obj.t Bucket) (cert : record) :
  plainMonth (getMonthEntry (cert !! "ISSUE DATE")) ->
  (newDate "2024-06-01" = isoDate "2024-06-01" ->
   cert !! "EXP DATE" = Some (JString "2024-06-01") ->
   cert !! "STATUS" = Some (JString "Expired") ->
   exists md', trendStep newDate june15 md cert = Ok md'
     /\ readIn expired md' "2024-06" = readIn expired md "2024-06" + 1)
  /\
  (forall expDate : string,
     cert !! "EXP DATE" = Some (JString expDate) ->
     expDate <> "" ->
     Obj.objectPrototype (substring expDate 0 7) = None ->
     cert !! "STATUS" = Some (JString "Lapsed-Ethics") ->
     exists md', trendStep newDate june15 md cert = Ok md'
       /\ readIn lapsed md' (substring expDate 0 7)
          = readIn lapsed md (substring expDate 0 7) + 1
       /\ (forall issueMonth,
             getMonthEntry (cert !! "ISSUE DATE") = Some issueMonth ->
             readIn ethicsViolations md' issueMonth
             = readIn ethicsViolations md issueMonth + 1)
       /\ (getMonthEntry (cert !! "ISSUE DATE") = None ->
           readIn ethicsViolations md' "2024-06"
           = readIn ethicsViolations md "2024-06" + 1)).
Proof.
  intros Hi. pose proof (violationKey_june15_plain cert Hi) as Hv.
  split.
  - intros Hdate Hexp Hst.
    destruct (trendStep_plain newDate june15 md cert Hi) as (md' & Hrun & Hc);
      [by rewrite Hexp | done |].
    exists md'. split; [done|].
    destruct (Hc "2024-06") as (-> & _ & _).
    rewrite Hexp, Hst. unfold sameMonth. simpl. rewrite Hdate. done.
  - intros expDate Hexp Hne Hp Hst.
    assert (getMonthEntry (cert !! "EXP DATE") = Some (substring expDate 0 7))
      as Hm.
    { rewrite Hexp. simpl. apply String.eqb_neq in Hne. by rewrite Hne. }
    destruct (trendStep_plain newDate june15 md cert Hi) as (md' & Hrun & Hc);
      [by rewrite Hm | done |].
    exists md'. split; [done|].
    destruct (violationKey_cases june15 cert) as [Hs Hn].
    split; [|split].
    + destruct (Hc (substring expDate 0 7)) as (_ & -> & _).
      rewrite Hm, Hst. by rewrite bool_decide_eq_true_2.
    + intros issueMonth Hissue.
      destruct (Hc issueMonth) as (_ & _ & ->).
      rewrite Hst, (Hs _ Hissue). by rewrite bool_decide_eq_true_2.
    + intros Hnone.
      destruct (Hc "2024-06") as (_ & _ & ->).
      rewrite Hst, (Hn Hnone). done.
Qed.

Lemma june_expired_and_lapsed_ethics_witness :
  (exists md', trendStep isoDate june15 Obj.empty certExpired = Ok md'
     /\ readIn expired md' "2024-06" = 0 + 1)
  /\ (exists md', trendStep isoDate june15 Obj.empty certLapsedEthics = Ok md'
       /\ readIn lapsed md' "2023-01" = 0 + 1
       /\ readIn ethicsViolations md' "2024-06" = 0 + 1).
Proof.
  split.
  - apply (june_expired_and_lapsed_ethics isoDate Obj.empty certExpired);
      reflexivity.
  - destruct (june_expired_and_lapsed_ethics isoDate Obj.empty
                certLapsedEthics) as [_ H]; [reflexivity|].
    destruct (H "2023-01-09") as (md' & Hrun & Hl & _ & He);
      [reflexivity | discriminate | reflexivity | reflexivity |].
    exists md'. split; [exact Hrun|]. split; [exact Hl|].
    apply He. reflexivity.
Defined.

(** C5, at records whose month keys the response reorders.  The claim: the
    keys of the returned mapping are in ascending lexicographic order.  Two
    records issued on "2024-06-01" and "20240601" give the month keys
    "2024-06" and "2024060"; line 193 sorts them ("2024-06" first), but the
    second is an array index, which an object enumerates ahead of its other
    keys: the response lists "2024060" before "2024-06". *)
Theorem monthly_keys_out_of_order
    (newDate : string -> option Instant) (today : Instant) :
  exists monthlyData formatted,
    forEach (trendStep newDate today) [certIsoDate; certBasicDate] Obj.empty
    = Ok monthlyData
    /\ stableSort defaultCompare (Obj.keys monthlyData)
       = ["2024-06"; "2024060"]
    /\ buildMonthlyTrends newDate today [certIsoDate; certBasicDate]
       = Ok formatted
    /\ Obj.keys formatted = ["2024060"; "2024-06"]
    /\ String.ltb "2024-06" "2024060" = true.
Proof.
  eexists. eexists. split; [vm_compute; reflexivity|].
  split; [vm_compute; reflexivity|].
  split; [vm_compute; reflexivity|].
  split; vm_compute; reflexivity.
Qed.

(** *** The order of the response's keys *)

(** The keys of the formatted object, in creation order: in ascending
    order and without repetition. *)
Lemma formatMonthly_creation_order (monthlyData : Obj.t Bucket) :
  StronglySorted (fun a b => String.ltb a b = true)
    (formatMonthly monthlyData).*1.
Proof.
  unfold formatMonthly.
  destruct (keys_fold_set (Obj.get monthlyData)
              (stableSort defaultCompare (Obj.keys monthlyData)) Obj.empty)
    as (l' & Hkeys & Hsub).
  apply StronglySorted_strict.
  - by apply NoDup_keys_fold_set, NoDup_nil.
  - rewrite Hkeys. simpl.
    eapply StronglySorted_sublist; [exact Hsub|].
    apply stableSort_sorted;
      eauto using leb_trans, defaultCompare_le, defaultCompare_gt.
Qed.

Lemma buildMonthlyTrends_formatted newDate today records formatted :
  buildMonthlyTrends newDate today records = Ok formatted ->
  exists monthlyData, formatted = formatMonthly monthlyData.
Proof.
  unfold buildMonthlyTrends.
  destruct (forEach (trendStep newDate today) records Obj.empty)
    as [monthlyData|e]; simpl; [|done].
  intros [= <-]. eauto.
Qed.

(** X2: the order of the keys in a response of the trend builder.  The
    keys that are array indices come first, in numeric order, the other
    keys follow in strictly ascending code-unit order.  When no key is an
    array index, as with month keys of the form YYYY-MM, the keys are
    ascending throughout. *)
Theorem monthly_keys_indices_then_ascending
    (newDate : string -> option Instant) (today : Instant)
    (records : list record) (formatted : Obj.t (Obj.slot Bucket)) :
  buildMonthlyTrends newDate today records = Ok formatted ->
  (exists indices others : list string,
      Obj.keys formatted = indices ++ others
      /\ Forall (fun k => Obj.isIndex k = true) indices
      /\ Forall (fun k => Obj.isIndex k = false) others
      /\ StronglySorted
           (fun a b => (Obj.indexValue a <= Obj.indexValue b)%N) indices
      /\ StronglySorted (fun a b => String.ltb a b = true) others)
  /\ (Forall (fun k => Obj.isIndex k = false) formatted.*1 ->
      StronglySorted (fun a b => String.ltb a b = true) (Obj.keys formatted)).
Proof.
  intros (monthlyData & ->)%buildMonthlyTrends_formatted.
  pose proof (formatMonthly_creation_order monthlyData) as Hsorted.
  split.
  - eexists _, _. split; [reflexivity|].
    split.
    { apply Forall_forall. intros k Hk.
      rewrite (stableSort_perm Obj.compareIndexKeys) in Hk.
      apply list_elem_of_In, List.filter_In in Hk. tauto. }
    split.
    { apply Forall_forall. intros k Hk%list_elem_of_In.
      apply List.filter_In in Hk as [_ Hk]. by apply negb_true_iff. }
    split.
    { apply stableSort_sorted;
        [intros x y z; lia | apply compareIndexKeys_le
         | apply compareIndexKeys_gt]. }
    eapply StronglySorted_sublist; [apply filter_sublist | exact Hsorted].
  - intros Hnone. unfold Obj.keys.
    rewrite filter_all_false by done. simpl.
    rewrite filter_all_true; [done|].
    eapply Forall_impl; [exact Hnone|]. by intros k ->.
Qed.

Lemma monthly_keys_indices_then_ascending_witness :
  exists formatted,
    buildMonthlyTrends isoDate june15 [certLapsedEthics; certExpired]
    = Ok formatted
    /\ StronglySorted (fun a b => String.ltb a b = true) (Obj.keys formatted).
Proof.
  eexists. split; [vm_compute; reflexivity|].
  apply (monthly_keys_indices_then_ascending isoDate june15
           [certLapsedEthics; certExpired]).
  - vm_compute. reflexivity.
  - repeat constructor.
Defined.



(** ** The table query *)

(** *** The page *)

Lemma slice_length {A} (array : list A) (s len : Z) :
  0 <= s -> 0 <= len ->
  Z.of_nat (List.length (slice array (Num s) (numAdd (Num s) (Num len))))
  = Z.max 0 (Z.min len (Z.of_nat (List.length array) - s)).
Proof.
  intros Hs Hl. unfold slice. simpl.
  rewrite length_take, length_drop.
  destruct (Z.ltb_spec s 0); [lia|].
  destruct (Z.ltb_spec (s + len) 0); lia.
Qed.

(** C6: for non-negative [start] and [length], the page holds at most
    [length] records, and exactly [min(length, recordsFiltered - start)]
    of them, or none when that is negative. *)
Theorem page_holds_min_of_length_and_rest
    (p : Params) (records : list record) (s len : Z) :
  start p = Num s -> pageLength p = Num len -> 0 <= s -> 0 <= len ->
  Z.of_nat (List.length (data (queryTable p records))) <= len
  /\ Z.of_nat (List.length (data (queryTable p records)))
     = Z.max 0 (Z.min len (recordsFiltered (queryTable p records) - s)).
Proof.
  intros Hstart Hlen Hs Hl. unfold queryTable. simpl.
  rewrite Hstart, Hlen, slice_length by done. lia.
Qed.

Lemma page_holds_min_of_length_and_rest_witness :
  Z.of_nat (List.length (data (queryTable byNameAscending
                                 [certNameA; certNameB; certNullName])))
  <= 10
  /\ Z.of_nat (List.length (data (queryTable byNameAscending
                                    [certNameA; certNameB; certNullName])))
     = Z.max 0 (Z.min 10
         (recordsFiltered (queryTable byNameAscending
                             [certNameA; certNameB; certNullName]) - 0)).
Proof.
  apply (page_holds_min_of_length_and_rest byNameAscending
           [certNameA; certNameB; certNullName] 0 10);
    [reflexivity | reflexivity | lia | lia].
Defined.



(** *** The sort step *)

Lemma compareRecords_le col dir a b :
  compareRecords col dir a b <= 0 -> inOrder col dir a b.
Proof.
  unfold compareRecords, inOrder.
  destruct (String.ltb (sortText col a) (sortText col b)) eqn:Eab;
    destruct (String.ltb (sortText col b) (sortText col a)) eqn:Eba;
    destruct (String.eqb dir "asc"); intros H; try lia;
    auto using ltb_leb, ltb_false_leb.
Qed.

Lemma compareRecords_gt col dir a b :
  0 < compareRecords col dir a b -> inOrder col dir b a.
Proof.
  unfold compareRecords, inOrder.
  destruct (String.ltb (sortText col a) (sortText col b)) eqn:Eab;
    destruct (String.ltb (sortText col b) (sortText col a)) eqn:Eba;
    destruct (String.eqb dir "asc"); intros H; try lia;
    auto using ltb_leb, ltb_false_leb.
Qed.

Lemma compareRecords_gt_key col dir a b :
  0 < compareRecords col dir a b -> sortText col a <> sortText col b.
Proof.
  unfold compareRecords.
  destruct (String.ltb (sortText col a) (sortText col b)) eqn:Eab;
    [intros _; by apply ltb_neq|].
  destruct (String.ltb (sortText col b) (sortText col a)) eqn:Eba;
    [intros _ E; by apply ltb_neq in Eba | lia].
Qed.

Lemma inOrder_trans col dir a b c :
  inOrder col dir a b -> inOrder col dir b c -> inOrder col dir a c.
Proof.
  unfold inOrder. destruct (String.eqb dir "asc"); eauto using leb_trans.
Qed.

Lemma applySort_named index col dir filtered :
  columnAt index = Some col -> dir <> "" ->
  applySort (Some index) (Some dir) filtered
  = stableSort (compareRecords col dir) filtered.
Proof.
  intros Hc Hd. unfold applySort. rewrite Hc.
  apply String.eqb_neq in Hd. by rewrite Hd.
Qed.

(** C7: when the column index names a column and a direction is given,
    the records come out as the same records, ordered by the column's value
    read as a case-folded string (ascending for "asc", descending
    otherwise), an absent or null value reading as the empty string, and
    records with equal keys keep their original relative order.  Sorting
    NAME "b" and "A" ascending gives "A", "b". *)
Theorem sort_case_folded_and_stable
    (index col dir : string) (filtered : list record) :
  columnAt index = Some col -> dir <> "" ->
  applySort (Some index) (Some dir) filtered ≡ₚ filtered
  /\ StronglySorted (inOrder col dir)
       (applySort (Some index) (Some dir) filtered)
  /\ (forall key : string,
        filter (fun r => sortText col r = key)
          (applySort (Some index) (Some dir) filtered)
        = filter (fun r => sortText col r = key) filtered)
  /\ (forall r : record,
        r !! col = None \/ r !! col = Some JNull -> sortText col r = "")
  /\ (forall (r : record) (text : string),
        r !! col = Some (JString text) -> sortText col r = toLowerCase text)
  /\ (fun r : record => r !! "NAME")
       <$> data (queryTable byNameAscending [certNameB; certNameA])
     = [Some (JString "A"); Some (JString "b")]
  /\ (fun r : record => r !! "NAME")
       <$> data (queryTable byNameAscending [certNameA; certNameB])
     = [Some (JString "A"); Some (JString "b")].
Proof.
  intros Hc Hd. rewrite (applySort_named index col dir) by done.
  split; [apply stableSort_perm|].
  split.
  { apply stableSort_sorted;
      eauto using inOrder_trans, compareRecords_le, compareRecords_gt. }
  split.
  { intros key. apply stableSort_filter_key, compareRecords_gt_key. }
  split.
  { unfold sortText. by intros r [-> | ->]. }
  split.
  { unfold sortText. intros r text ->. simpl.
    by destruct text. }
  split; vm_compute; reflexivity.
Qed.

Lemma sort_case_folded_and_stable_witness :
  applySort (Some "2") (Some "asc") [certNameB; certNameA; certNullName]
    ≡ₚ [certNameB; certNameA; certNullName]
  /\ StronglySorted (inOrder "NAME" "asc")
       (applySort (Some "2") (Some "asc")
          [certNameB; certNameA; certNullName])
  /\ sortText "NAME" certNullName = "".
Proof.
  destruct (sort_case_folded_and_stable "2" "NAME" "asc"
              [certNameB; certNameA; certNullName])
    as (Hperm & Hsorted & _ & Hmissing & _); [reflexivity | discriminate |].
  split; [exact Hperm|]. split; [exact Hsorted|].
  apply Hmissing. right. reflexivity.
Defined.

Lemma inOrder_antisym col dir a b :
  inOrder col dir a b -> inOrder col dir b a -> sortText col a = sortText col b.
Proof.
  unfold inOrder. destruct (String.eqb dir "asc"); intros H1 H2;
    [| symmetry]; by apply String.leb_antisym.
Qed.

(** X6: whatever algorithm a stable [sort] runs, its outcome under the
    comparator of line 235 is the list the model computes.  An arrangement
    that is in order and keeps, for every key, the input order of the
    records with that key, is [stableSort] of the input. *)
Theorem stable_sort_outcome_is_determined
    (col dir : string) (filtered arranged : list record) :
  StronglySorted (inOrder col dir) arranged ->
  (forall key : string,
      filter (fun r => sortText col r = key) arranged
      = filter (fun r => sortText col r = key) filtered) ->
  arranged = stableSort (compareRecords col dir) filtered.
Proof.
  intros Hsorted Hstable.
  apply (stable_sorted_unique (inOrder col dir) (sortText col)).
  - apply inOrder_antisym.
  - done.
  - apply stableSort_sorted;
      eauto using inOrder_trans, compareRecords_le, compareRecords_gt.
  - intros key. rewrite Hstable. symmetry.
    apply stableSort_filter_key, compareRecords_gt_key.
Qed.

Lemma stable_sort_outcome_is_determined_witness :
  [certNameA; certNameB]
  = stableSort (compareRecords "NAME" "asc") [certNameB; certNameA].
Proof.
  apply (stable_sort_outcome_is_determined "NAME" "asc"
           [certNameB; certNameA] [certNameA; certNameB]).
  - repeat constructor.
  - intros key. rewrite !filter_cons, !filter_nil.
    repeat case_decide; simplify_eq; done.
Defined.

(** *** Numerals as property names *)

Lemma pretty_N_char_numeral x s :
  startsNumeral (String (pretty_N_char x) s) = true.
Proof. unfold pretty_N_char. by repeat case_match. Qed.

Lemma pretty_N_go_numeral x s :
  startsNumeral s = true -> startsNumeral (pretty_N_go x s) = true.
Proof.
  revert s. induction (N.lt_wf_0 x) as [x _ IH]; intros s Hs.
  assert (x = 0 \/ 0 < x)%N as [->|Hx] by lia.
  - by rewrite pretty_N_go_0.
  - rewrite pretty_N_go_step by done. apply IH.
    + by apply N.div_lt.
    + apply pretty_N_char_numeral.
Qed.

Lemma pretty_N_numeral (x : N) : startsNumeral (pretty x) = true.
Proof.
  unfold pretty, pretty_N. case_decide; [done|].
  rewrite pretty_N_go_step by lia.
  apply pretty_N_go_numeral, pretty_N_char_numeral.
Qed.

Lemma pretty_Z_numeral (z : Z) : startsNumeral (pretty z) = true.
Proof.
  destruct z as [|p|p]; [done| |done].
  apply (pretty_N_numeral (Npos p)).
Qed.

Lemma pretty_nat_Z (i : nat) : pretty i = pretty (Z.of_nat i).
Proof. by destruct i. Qed.

Lemma elementNamed_None array i key :
  (forall j : nat, (i <= j < i + List.length array)%nat -> key <> pretty j) ->
  elementNamed array i key = None.
Proof.
  revert i. induction array as [|x array IH]; intros i Hj; simpl; [done|].
  destruct (String.eqb_spec key (pretty i)) as [E|_].
  - exfalso. apply (Hj i); [simpl; lia | done].
  - apply IH. intros j Hr. apply Hj. simpl. lia.
Qed.

Lemma columnAt_numeral key :
  startsNumeral key = true ->
  elementNamed columns 0 key = None ->
  columnAt key = None.
Proof.
  intros Hn He. unfold columnAt. rewrite He.
  destruct key as [|c s]; [done|]. simpl in Hn.
  repeat (apply orb_true_iff in Hn as [Hn|Hn]);
    try (apply Ascii.eqb_eq in Hn; subst c; reflexivity).
  discriminate.
Qed.

Lemma columnAt_outside (z : Z) : z < 0 \/ 11 <= z -> columnAt (pretty z) = None.
Proof.
  intros Hz. apply columnAt_numeral; [apply pretty_Z_numeral|].
  apply elementNamed_None. intros j Hj. rewrite pretty_nat_Z.
  intros E%(inj pretty). simpl in Hj. lia.
Qed.

(** C9: when the sort column index is an integer outside 0..10, written
    as its decimal numeral, the sort step leaves the filtered sequence as
    it is, whatever the direction; the page is cut from the filtered
    sequence in its original order.  [queryTable] has no failing path: it
    returns an envelope for every input. *)
Theorem sort_skipped_outside_columns
    (z : Z) (p : Params) (records filtered : list record) :
  z < 0 \/ 11 <= z ->
  orderColumnIndex p = Some (pretty z) ->
  applySort (Some (pretty z)) (orderDirection p) filtered = filtered
  /\ queryTable p records
     = {| envDraw := draw p;
          recordsTotal := Z.of_nat (List.length records);
          recordsFiltered :=
            Z.of_nat (List.length (applySearch (searchValue p) records));
          data := slice (applySearch (searchValue p) records) (start p)
                    (numAdd (start p) (pageLength p)) |}.
Proof.
  intros Hz Hp.
  assert (forall l, applySort (Some (pretty z)) (orderDirection p) l = l)
    as Hskip.
  { intros l. unfold applySort. rewrite (columnAt_outside z Hz).
    destruct (orderDirection p) as [dir|]; [|done].
    by destruct (String.eqb dir ""). }
  split; [apply Hskip|].
  unfold queryTable. by rewrite Hp, Hskip.
Qed.

Lemma sort_skipped_outside_columns_witness :
  applySort (Some "11") (Some "desc") [certNameB; certNameA]
  = [certNameB; certNameA]
  /\ data (queryTable
             {| draw := None; start := Num 0; pageLength := Num 10;
                searchValue := ""; orderColumnIndex := Some "11";
                orderDirection := Some "desc" |}
             [certNameB; certNameA])
     = [certNameB; certNameA].
Proof.
  destruct (sort_skipped_outside_columns 11
              {| draw := None; start := Num 0; pageLength := Num 10;
                 searchValue := ""; orderColumnIndex := Some "11";
                 orderDirection := Some "desc" |}
              [certNameB; certNameA] [certNameB; certNameA])
    as [Hsort Hq]; [lia | reflexivity |].
  split; [exact Hsort|]. rewrite Hq. reflexivity.
Defined.

(** *** The global filter *)

Lemma matchesSearch_iff searchValue (cert : record) :
  matchesSearch searchValue cert = true
  <-> exists (field : string) (value : jsvalue),
        cert !! field = Some value
        /\ includes (toLowerCase (StringOf value)) (toLowerCase searchValue)
           = true.
Proof.
  unfold matchesSearch. rewrite existsb_exists. split.
  - intros (value & Hin & Hinc).
    apply list_elem_of_In, list_elem_of_fmap in Hin
      as ([field value'] & -> & Hin).
    apply elem_of_map_to_list in Hin. eauto.
  - intros (field & value & Hl & Hinc). exists value. split; [|done].
    apply list_elem_of_In, list_elem_of_fmap. exists (field, value).
    split; [done|]. by apply elem_of_map_to_list.
Qed.

(** C10, the part that fails: a field that is absent is not among the
    values the filter looks at, so its rendering "undefined" matches
    nothing.  The record has no CITY, "undefined" contains the search
    value, and the filter drops the record. *)
Lemma absent_field_is_not_searched :
  certAnn !! "CITY" = None
  /\ includes (toLowerCase (rendering (certAnn !! "CITY")))
       (toLowerCase "undefined") = true
  /\ matchesSearch "undefined" certAnn = false
  /\ applySearch "undefined" [certAnn] = [].
Proof. vm_compute. repeat split. Qed.

(** C10 as the code has it: the filter keeps a record exactly when one of
    the fields it holds, read through [String], contains the search value
    (both case-folded); a null field is read as "null", an absent field is
    not read.  The record with NAME null and STATUS "Active" is kept for
    the search value "null", though none of its texts contains it. *)
Theorem null_field_is_searched_as_text :
  (forall (searchValue : string) (cert : record),
      matchesSearch searchValue cert = true
      <-> exists (field : string) (value : jsvalue),
            cert !! field = Some value
            /\ includes (toLowerCase (StringOf value))
                 (toLowerCase searchValue) = true)
  /\ StringOf JNull = "null"
  /\ certNullName !! "NAME" = Some JNull
  /\ (forall field text : string,
        certNullName !! field = Some (JString text) ->
        includes (toLowerCase text) (toLowerCase "null") = false)
  /\ applySearch "null" [certNullName] = [certNullName].
Proof.
  split; [apply matchesSearch_iff|].
  split; [done|]. split; [done|]. split; [|by vm_compute].
  intros field text. unfold certNullName.
  destruct (decide (field = "NAME")) as [->|Hn].
  { rewrite lookup_insert_eq. discriminate. }
  rewrite lookup_insert_ne by done.
  destruct (decide (field = "STATUS")) as [->|Hs].
  { rewrite lookup_singleton_eq. by intros [= <-]. }
  rewrite lookup_singleton_ne by done. discriminate.
Qed.

Lemma null_field_is_searched_as_text_witness :
  exists (field : string) (value : jsvalue),
    certNullName !! field = Some value
    /\ includes (toLowerCase (StringOf value)) (toLowerCase "null") = true.
Proof.
  destruct null_field_is_searched_as_text as (Hiff & _).
  apply (Hiff "null" certNullName). reflexivity.
Defined.

(** ** The router *)

(** Past the preflight, the router's promise is the endpoint's own promise:
    each [return] hands it on without awaiting it. *)
Lemma router_hands_on_the_promise fetch newDate today request url env :
  method request <> "OPTIONS" ->
  handleApiRequest fetch newDate today request url env
  = if String.eqb (pathname url) "/api/certifications"
    then fetchAllCertifications fetch request env apiHeaders
    else if String.eqb (pathname url) "/api/summary"
    then getCertificationsSummary fetch request env apiHeaders
    else if String.eqb (pathname url) "/api/monthly-trends"
    then getMonthlyTrends fetch newDate today request env apiHeaders
    else if String.eqb (pathname url) "/api/table-data"
    then getTableData fetch request env apiHeaders
    else Fulfilled (jsonResponse (JsonError "API endpoint not found" None)
                      404 apiHeaders).
Proof.
  intros Hm. unfold handleApiRequest.
  apply String.eqb_neq in Hm. rewrite Hm.
  by repeat (case_match; simpl; try done).
Qed.

Lemma fetchFromNocoDB_rejects network env tableId queryParams e :
  (forall address requestHeaders, network address requestHeaders = Rejected e) ->
  fetchFromNocoDB network env tableId queryParams = Rejected e.
Proof. intros H. unfold fetchFromNocoDB. by rewrite H. Qed.

Lemma endpoints_answer_200 fetch newDate today request env response :
  (fetchAllCertifications fetch request env apiHeaders = Fulfilled response
   \/ getCertificationsSummary fetch request env apiHeaders
      = Fulfilled response
   \/ getMonthlyTrends fetch newDate today request env apiHeaders
      = Fulfilled response
   \/ getTableData fetch request env apiHeaders = Fulfilled response) ->
  status response = 200.
Proof.
  unfold fetchAllCertifications, getCertificationsSummary, getMonthlyTrends.
  destruct (fetchFromNocoDB fetch env CERTIFICATIONS_TABLE_ID
              [("limit", "10000")]) as [allCertifications|e]; simpl.
  - destruct (buildMonthlyTrends newDate today allCertifications); simpl;
      intros [H|[H|[H|H]]]; by simplify_eq.
  - intros [H|[H|[H|H]]]; by simplify_eq.
Qed.

(** X3: the [catch] of the router never runs.  Whatever the network does,
    a response of the router is a 200 or the 404 of an unknown path. *)
Theorem router_never_answers_500 fetch newDate today request url env response :
  handleApiRequest fetch newDate today request url env = Fulfilled response ->
  status response = 200 \/ status response = 404.
Proof.
  destruct (decide (method request = "OPTIONS")) as [Hm|Hm].
  { unfold handleApiRequest. rewrite Hm. simpl. intros [= <-]. by left. }
  rewrite router_hands_on_the_promise by done.
  repeat case_match; intros Hr;
    try (left; apply (endpoints_answer_200 fetch newDate today request env);
         auto; fail).
  right. by simplify_eq.
Qed.

Lemma router_never_answers_500_witness :
  status (jsonResponse (JsonSummary (summarize [certNoCity])) 200 apiHeaders)
  = 200
  \/ status (jsonResponse (JsonSummary (summarize [certNoCity])) 200
               apiHeaders) = 404.
Proof.
  apply (router_never_answers_500
           (fun _ _ => Fulfilled (mkReply 200 "OK" "" [certNoCity]))
           isoDate june15
           (mkRequest "GET" (mkUrl "/api/summary" []))
           (mkUrl "/api/summary" []) (mkEnv "https://db.example/" "token")).
  reflexivity.
Defined.

(** C2, on every GET of /api/table-data.  The claim: the handler answers
    with the paging envelope.  The handler's first statement reads [url],
    a name that is a parameter of the router and is in no scope of
    [getTableData]: the read throws, the handler's promise is rejected with
    a ReferenceError, and so is the router's.  No envelope is returned. *)
Theorem table_data_rejects_with_reference_error
    (fetch : Network) (newDate : string -> option Instant) (today : Instant)
    (env : Env) (query : list (string * string)) :
  resolve getTableDataScope "url"
  = Throw (ReferenceError "url is not defined")
  /\ getTableData fetch
       (mkRequest "GET" (mkUrl "/api/table-data" query)) env apiHeaders
     = Rejected (ReferenceError "url is not defined")
  /\ handleApiRequest fetch newDate today
       (mkRequest "GET" (mkUrl "/api/table-data" query))
       (mkUrl "/api/table-data" query) env
     = Rejected (ReferenceError "url is not defined").
Proof. repeat split. Qed.

(** C3, on a failing upstream.  The claim: the router catches every error
    and answers 500 with an error envelope.  The router returns the
    endpoint's promise without awaiting it, so its [try] has ended when the
    promise rejects: for /api/summary, an upstream answer 500 rejects the
    router's promise with the upstream error, and a transport failure
    rejects it with the transport's error.  No response is produced. *)
Theorem upstream_failure_escapes_the_router
    (newDate : string -> option Instant) (today : Instant) (env : Env)
    (reason text : string) (list : list record) (e : JsError) :
  handleApiRequest (fun _ _ => Fulfilled (mkReply 500 reason text list))
    newDate today (mkRequest "GET" (mkUrl "/api/summary" []))
    (mkUrl "/api/summary" []) env
  = Rejected (Error ("Failed to fetch from NocoDB: 500 - "
                       +:+ reason +:+ " - " +:+ text))
  /\ handleApiRequest (fun _ _ => Rejected e)
       newDate today (mkRequest "GET" (mkUrl "/api/summary" []))
       (mkUrl "/api/summary" []) env
     = Rejected e.
Proof. split; reflexivity. Qed.

(** X5: the static branch of the export awaits inside its [try].  When
    the asset handler fails for a path outside /api/ and the entry document
    can be fetched, the failure is caught and the entry document is served
    with status 200. *)
Theorem awaited_asset_failure_is_caught
    (fetch : Network) (newDate : string -> option Instant) (today : Instant)
    (assets : Request -> promise Response) (request : Request) (env : Env)
    (e : JsError) (indexResponse : Response) :
  String.prefix "/api/" (pathname (requestUrl request)) = false ->
  assets request = Rejected e ->
  assets indexRequest = Fulfilled indexResponse ->
  responseOk indexResponse = true ->
  defaultFetch fetch newDate today assets request env
  = Fulfilled (spaFallback indexResponse).
Proof.
  intros Hpath Hasset Hindex Hok. unfold defaultFetch.
  rewrite Hpath, Hasset. simpl. rewrite Hindex. simpl. by rewrite Hok.
Qed.

Lemma awaited_asset_failure_is_caught_witness :
  defaultFetch (fun _ _ => Rejected (TypeError "fetch failed")) isoDate june15
    (fun request =>
       if String.eqb (pathname (requestUrl request)) "/index.html"
       then Fulfilled {| body := Some (AssetContent "<html></html>");
                         status := 200; headers := [] |}
       else Rejected (TypeError "fetch failed"))
    (mkRequest "GET" (mkUrl "/dashboard" []))
    (mkEnv "https://db.example/" "token")
  = Fulfilled (spaFallback {| body := Some (AssetContent "<html></html>");
                              status := 200; headers := [] |}).
Proof.
  apply (awaited_asset_failure_is_caught _ _ _ _ _ _
           (TypeError "fetch failed")); reflexivity.
Defined.

(** * Further properties of the endpoints *)

#[local] Set Warnings "-clear-no-such-hyp".

(** ** The aggregator, name by name *)

(** X7: in each grouping, the count stored under a group name that
    [Object.prototype] does not define is the number of records with that
    group name, whatever the other records are called. *)
Theorem summarize_counts_each_plain_name
    (records : list record) (key : string) :
  Obj.objectPrototype key = None ->
  countOf (byCredential (summarize records)) key
  = Some (grouped "CREDENTIAL" key records)
  /\ countOf (byCounty (summarize records)) key
     = Some (grouped "COUNTY" key records)
  /\ countOf (byCity (summarize records)) key
     = Some (grouped "CITY" key records).
Proof.
  intros Hp. unfold summarize.
  rewrite fold_countCert_byCredential, fold_countCert_byCounty,
    fold_countCert_byCity. simpl.
  assert (countOf (Obj.empty (V:=count)) key = Some 0) as H0.
  { unfold countOf, Obj.get. simpl. by rewrite Hp. }
  repeat split; by rewrite (countOf_fold _ _ _ _ 0).
Qed.

Lemma summarize_counts_each_plain_name_witness :
  countOf (byCredential
             (summarize [certNoCity; certConstructor; certNoCity])) "CRS"
  = Some 2
  /\ countOf (byCounty
                (summarize [certNoCity; certConstructor; certNoCity])) "CRS"
     = Some 0
  /\ countOf (byCity
                (summarize [certNoCity; certConstructor; certNoCity])) "CRS"
     = Some 0.
Proof.
  apply (summarize_counts_each_plain_name
           [certNoCity; certConstructor; certNoCity] "CRS").
  reflexivity.
Defined.

Lemma own_Some_keys {V} (o : Obj.t V) k v : Obj.own o k = Some v -> k ∈ o.*1.
Proof.
  induction o as [|[k' v'] o IH]; simpl; [done|].
  destruct (String.eqb_spec k k') as [->|Hne]; intros H.
  - left.
  - right. auto.
Qed.

Lemma elem_of_keys_set {V} (o : Obj.t V) k v key :
  key ∈ (Obj.set o k v).*1
  <-> key ∈ o.*1 \/ (key = k /\ k <> "__proto__").
Proof.
  unfold Obj.set. destruct (Obj.own o k) as [w|] eqn:E.
  - rewrite keys_overwrite. split; [auto|].
    intros [H | [-> _]]; [done|]. by eapply own_Some_keys.
  - destruct (String.eqb_spec k "__proto__") as [->|Hne].
    + split; [auto|]. by intros [H | [_ H]].
    + rewrite fmap_app, elem_of_app. simpl.
      rewrite list_elem_of_singleton. naive_solver.
Qed.

Lemma NoDup_keys_set {V} (o : Obj.t V) k v :
  NoDup o.*1 -> NoDup (Obj.set o k v).*1.
Proof.
  intros Ho. destruct (keys_set o k v) as [-> | [Hk ->]]; [done|].
  apply NoDup_app. split; [done|]. split.
  - by intros x Hx ->%list_elem_of_singleton.
  - apply NoDup_singleton.
Qed.

Lemma keys_fold_increment (name : record -> string) (records : list record)
    (counts : Obj.t count) :
  (NoDup counts.*1 ->
   NoDup (fold_left (fun c cert => increment c (name cert)) records counts).*1)
  /\ forall key,
       key ∈ (fold_left (fun c cert => increment c (name cert))
                records counts).*1
       <-> key ∈ counts.*1
           \/ (key <> "__proto__" /\ key ∈ name <$> records).
Proof.
  revert counts. induction records as [|cert l IH]; intros counts; simpl.
  - split; [done|]. intros key. split; [auto|].
    intros [H | [_ H]]; [done|]. by apply elem_of_nil in H.
  - destruct (IH (increment counts (name cert))) as [Hnd Hin].
    split.
    + intros Hc. by apply Hnd, NoDup_keys_set.
    + intros key. rewrite Hin. unfold increment.
      rewrite elem_of_keys_set, elem_of_cons. naive_solver.
Qed.

Lemma keys_of_grouping (name : record -> string) (records : list record) :
  NoDup (fold_left (fun c cert => increment c (name cert)) records
           Obj.empty).*1
  /\ forall key,
       key ∈ (fold_left (fun c cert => increment c (name cert)) records
                Obj.empty).*1
       <-> key <> "__proto__" /\ key ∈ name <$> records.
Proof.
  destruct (keys_fold_increment name records Obj.empty) as [Hnd Hin].
  split; [apply Hnd, NoDup_nil_2|].
  intros key. rewrite Hin. split; [|auto].
  intros [H|H]; [by apply elem_of_nil in H | done].
Qed.

(** X8: each grouping of the summary has one entry per group name that
    occurs in the records, and no other entry; the name [__proto__] alone
    never gets one. *)
Theorem summary_lists_each_group_once (records : list record) :
  (NoDup (byCredential (summarize records)).*1
   /\ forall key,
        key ∈ (byCredential (summarize records)).*1
        <-> key <> "__proto__" /\ key ∈ groupKey "CREDENTIAL" <$> records)
  /\ (NoDup (byCounty (summarize records)).*1
      /\ forall key,
           key ∈ (byCounty (summarize records)).*1
           <-> key <> "__proto__" /\ key ∈ groupKey "COUNTY" <$> records)
  /\ (NoDup (byCity (summarize records)).*1
      /\ forall key,
           key ∈ (byCity (summarize records)).*1
           <-> key <> "__proto__" /\ key ∈ groupKey "CITY" <$> records).
Proof.
  unfold summarize.
  rewrite fold_countCert_byCredential, fold_countCert_byCounty,
    fold_countCert_byCity. simpl.
  split; [|split]; apply keys_of_grouping.
Qed.

Lemma summary_lists_each_group_once_witness :
  "CRS" ∈ (byCredential (summarize [certNoCity; certProto; certNoCity])).*1
  /\ "__proto__"
     ∉ (byCredential (summarize [certNoCity; certProto; certNoCity])).*1.
Proof.
  destruct (summary_lists_each_group_once [certNoCity; certProto; certNoCity])
    as [[_ Hin] _].
  split.
  - apply Hin. split; [discriminate|]. left.
  - intros H. apply Hin in H as [Hne _]. by apply Hne.
Defined.

(** ** The trend builder, month by month *)

Lemma own_set_same {V} (o : Obj.t V) k v :
  is_Some (Obj.own o k) -> Obj.own (Obj.set o k v) k = Some v.
Proof.
  intros Hs. unfold Obj.set. destruct Hs as [w Hw]. rewrite Hw.
  apply own_overwrite_eq. by rewrite Hw.
Qed.

(** After [ensureBucket], the read of the month is a bucket of the object
    or a built-in: never [undefined]. *)
Lemma get_ensureBucket_cases md m :
  (exists b, Obj.get (ensureBucket md m) m = Obj.Own b
             /\ Obj.own (ensureBucket md m) m = Some b
             /\ forall counter, counter freshBucket = 0 ->
                                counter b = readIn counter md m)
  \/ (exists i, Obj.get (ensureBucket md m) m = Obj.Inherited i
                /\ ensureBucket md m = md
                /\ Obj.objectPrototype m <> None).
Proof.
  unfold ensureBucket, Obj.get, readIn.
  destruct (Obj.own md m) as [b|] eqn:E.
  - left. rewrite E. eauto.
  - destruct (Obj.objectPrototype m) as [i|] eqn:Hp.
    + right. rewrite E. by exists i.
    + left. rewrite own_set_eq by by apply not_inherited_not_proto. eauto.
Qed.

Lemma noInheritedKeys_set_plain (md : Obj.t Bucket) m b :
  Obj.objectPrototype m = None ->
  noInheritedKeys md -> noInheritedKeys (Obj.set md m b).
Proof.
  intros Hp Hi k Hk. rewrite own_set_ne; [by apply Hi|]. by intros ->.
Qed.

Lemma noInheritedKeys_set_own (md : Obj.t Bucket) m b :
  is_Some (Obj.own md m) ->
  noInheritedKeys md -> noInheritedKeys (Obj.set md m b).
Proof.
  intros [w Hw] Hi k Hk. rewrite own_set_ne; [by apply Hi|].
  intros ->. specialize (Hi k Hk). congruence.
Qed.

Lemma noInheritedKeys_ensureBucket md m :
  noInheritedKeys md -> noInheritedKeys (ensureBucket md m).
Proof.
  intros Hi. unfold ensureBucket, Obj.get.
  destruct (Obj.own md m); [done|].
  destruct (Obj.objectPrototype m) eqn:Hp; [done|].
  by apply noInheritedKeys_set_plain.
Qed.

(** A counter bump after [ensureBucket], for any month: it does not throw,
    and a counter read under a plain name moves by the bump when the name
    is the month. *)
Lemma bump_any update md m :
  exists md', bump update (ensureBucket md m) m = Ok md'
    /\ (noInheritedKeys md -> noInheritedKeys md')
    /\ forall counter delta k,
         counter freshBucket = 0 ->
         (forall b, counter (update b) = counter b + delta) ->
         Obj.objectPrototype k = None ->
         readIn counter md' k
         = readIn counter md k + (if decide (m = k) then delta else 0).
Proof.
  unfold bump.
  destruct (get_ensureBucket_cases md m)
    as [(b & -> & Hown & Hb) | (i & -> & Hsame & Hp)].
  - eexists. split; [done|]. split.
    + intros Hi. apply noInheritedKeys_set_own; [by rewrite Hown|].
      by apply noInheritedKeys_ensureBucket.
    + intros counter delta k H0 Hd Hk. case_decide as E.
      * subst k. rewrite readIn_set_eq by by apply not_inherited_not_proto.
        by rewrite Hd, Hb.
      * rewrite readIn_set_ne, readIn_ensureBucket by done. lia.
  - exists md. rewrite Hsame. split; [done|]. split; [done|].
    intros counter delta k H0 Hd Hk. case_decide as E; [congruence | lia].
Qed.

Lemma certifiedOf_certify counts credential c :
  Obj.objectPrototype c = None ->
  certifiedOf (certify counts credential) c
  = certifiedOf counts c + (if decide (credential = c) then 1 else 0).
Proof.
  intros Hp. pose proof (not_inherited_not_proto c Hp) as Hc.
  unfold certifiedOf, certify. case_decide as E.
  - subst credential. rewrite get_set_eq by done.
    unfold Obj.get at 2 3. rewrite Hp.
    destruct (Obj.own counts c) as [[|n]|] eqn:Eo.
    + by rewrite get_set_eq.
    + destruct (Z.eqb_spec n 0) as [->|Hn].
      * by rewrite get_set_eq.
      * unfold Obj.get. by rewrite Eo.
    + by rewrite get_set_eq.
  - rewrite get_set_ne by done.
    destruct (Obj.get counts credential) as [[|n]| |];
      try destruct (n =? 0); rewrite ?get_set_ne by done; lia.
Qed.

Lemma certified_fresh c : certified c freshBucket = 0.
Proof.
  unfold certified, certifiedOf, Obj.get. simpl.
  by destruct (Obj.objectPrototype c).
Qed.

(** The issue-date part on a plain month: no throw, the scalar counters
    stay, and [newlyCertified] moves by one for the record's credential in
    that month. *)
Lemma newCertifications_counts issueMonth credential md :
  (forall m, issueMonth = Some m -> m <> "") ->
  plainMonth issueMonth ->
  exists md1, newCertifications issueMonth credential md = Ok md1
    /\ (noInheritedKeys md -> noInheritedKeys md1)
    /\ (forall counter k,
          counter freshBucket = 0 ->
          (forall b c, counter (mkBucket c (lapsed b) (expired b)
                                  (ethicsViolations b)) = counter b) ->
          readIn counter md1 k = readIn counter md k)
    /\ (forall c k,
          Obj.objectPrototype c = None ->
          readIn (certified c) md1 k
          = readIn (certified c) md k
            + hit (bool_decide (issueMonth = Some k)
                   && bool_decide (credential = c))).
Proof.
  intros Hne Hp. unfold newCertifications.
  destruct issueMonth as [m|]; simpl in *.
  2:{ exists md. repeat split; try done. intros c k _. simpl. lia. }
  specialize (Hne m eq_refl). apply String.eqb_neq in Hne as Hne'.
  rewrite Hne'. simpl.
  pose proof (not_inherited_not_proto m Hp) as Hm.
  unfold addNewlyCertified.
  destruct (get_ensureBucket_cases md m)
    as [(b & -> & Hown & Hb) | (i & _ & _ & Hi)]; [|done].
  eexists. split; [done|]. split; [|split].
  - intros Hk. apply noInheritedKeys_set_own; [by rewrite Hown|].
    by apply noInheritedKeys_ensureBucket.
  - intros counter k H0 Hc. rewrite readIn_set by done. case_decide as E.
    + subst k. rewrite Hc. by apply Hb.
    + by apply readIn_ensureBucket.
  - intros c k Hcp. rewrite readIn_set by done. case_decide as E.
    + subst k. rewrite bool_decide_eq_true_2 by done.
      unfold certified at 1. simpl. rewrite certifiedOf_certify by done.
      rewrite <- (Hb (certified c)) by apply certified_fresh.
      unfold certified.
      case_decide; [by rewrite bool_decide_eq_true_2
                   | by rewrite bool_decide_eq_false_2].
    + rewrite readIn_ensureBucket by apply certified_fresh.
      rewrite (bool_decide_eq_false_2 (Some m = Some k)) by congruence.
      simpl. lia.
Qed.

(** With no inherited key in [monthlyData], an issue month that
    [Object.prototype] defines makes the callback throw. *)
Lemma newCertifications_throws m credential md :
  m <> "" -> Obj.objectPrototype m <> None -> noInheritedKeys md ->
  exists e, newCertifications (Some m) credential md = Throw e
            /\ errorName e = "TypeError".
Proof.
  intros Hne Hp Hi. unfold newCertifications. simpl.
  apply String.eqb_neq in Hne. rewrite Hne. simpl.
  unfold addNewlyCertified.
  destruct (get_ensureBucket_cases md m)
    as [(b & _ & Hown & _) | (i & -> & _ & _)]; [|eauto].
  exfalso. pose proof (noInheritedKeys_ensureBucket md m Hi m Hp). congruence.
Qed.

Lemma expiredThisMonth_any newDate today expDate status m md :
  exists mdx,
    expiredThisMonth newDate today expDate status m (ensureBucket md m) = Ok mdx
    /\ (noInheritedKeys md -> noInheritedKeys mdx)
    /\ forall counter delta k,
         counter freshBucket = 0 ->
         (forall b, counter (expiredPlus b) = counter b + delta) ->
         Obj.objectPrototype k = None ->
         readIn counter mdx k
         = readIn counter md k
           + delta * hit (bool_decide (m = k)
                          && sameMonth newDate today (orElse expDate "")
                          && notActive status).
Proof.
  unfold expiredThisMonth.
  destruct (sameMonth newDate today (orElse expDate "") && notActive status)
    eqn:Ec.
  - destruct (bump_any expiredPlus md m) as (mdx & -> & Hi & Hc).
    exists mdx. split; [done|]. split; [done|].
    intros counter delta k H0 Hd Hk.
    rewrite (Hc counter delta k) by done.
    rewrite <- andb_assoc, Ec, andb_true_r. decide_hits.
  - exists (ensureBucket md m). split; [done|].
    split; [apply noInheritedKeys_ensureBucket|].
    intros counter delta k H0 Hd Hk.
    rewrite <- andb_assoc, Ec, andb_false_r. simpl.
    rewrite readIn_ensureBucket by done. lia.
Qed.

Lemma lapsedByStatus_any status m md :
  exists md2, lapsedByStatus status m md = Ok md2
    /\ (noInheritedKeys md -> noInheritedKeys md2)
    /\ forall counter delta k,
         counter freshBucket = 0 ->
         (forall b, counter (lapsedPlus b) = counter b + delta) ->
         Obj.objectPrototype k = None ->
         readIn counter md2 k
         = readIn counter md k
           + delta * hit (bool_decide (m = k)
                          && statusMentions status "lapsed").
Proof.
  unfold lapsedByStatus. destruct (statusMentions status "lapsed").
  - destruct (bump_any lapsedPlus md m) as (md2 & -> & Hi & Hc).
    exists md2. split; [done|]. split; [done|].
    intros counter delta k H0 Hd Hk.
    rewrite (Hc counter delta k) by done. rewrite andb_true_r. decide_hits.
  - exists md. split; [done|]. split; [done|].
    intros counter delta k _ _ _. rewrite andb_false_r. simpl. lia.
Qed.

Lemma lapsedExpired_any newDate today expDate status md :
  exists md2, lapsedExpired newDate today expDate status md = Ok md2
    /\ (noInheritedKeys md -> noInheritedKeys md2)
    /\ forall counter dE dL k,
         counter freshBucket = 0 ->
         (forall b, counter (expiredPlus b) = counter b + dE) ->
         (forall b, counter (lapsedPlus b) = counter b + dL) ->
         Obj.objectPrototype k = None ->
         readIn counter md2 k
         = readIn counter md k
           + dE * hit (bool_decide (getMonthEntry expDate = Some k)
                       && sameMonth newDate today (orElse expDate "")
                       && notActive status)
           + dL * hit (bool_decide (getMonthEntry expDate = Some k)
                       && statusMentions status "lapsed").
Proof.
  unfold lapsedExpired.
  destruct (getMonthEntry expDate) as [me|] eqn:Ee.
  2:{ exists md. split; [done|]. split; [done|]. intros counter dE dL k _ _ _ _.
      rewrite !bool_decide_eq_false_2 by done. simpl. lia. }
  rewrite (isMonth_getMonthEntry _ _ Ee). simpl.
  destruct (expiredThisMonth_any newDate today expDate status me md)
    as (mdx & -> & Hix & Hx).
  simpl.
  destruct (lapsedByStatus_any status me mdx) as (md2 & -> & Hil & Hl).
  exists md2. split; [done|]. split; [auto|].
  intros counter dE dL k H0 HE HL Hk.
  rewrite (Hl counter dL k), (Hx counter dE k) by done.
  rewrite (bool_decide_ext (Some me = Some k) (me = k))
    by (split; congruence).
  done.
Qed.

Lemma ethics_any today (cert : record) md :
  exists md3,
    ethics today (getMonthEntry (cert !! "ISSUE DATE")) (cert !! "STATUS") md
    = Ok md3
    /\ (noInheritedKeys md -> noInheritedKeys md3)
    /\ forall counter delta k,
         counter freshBucket = 0 ->
         (forall b, counter (ethicsPlus b) = counter b + delta) ->
         Obj.objectPrototype k = None ->
         readIn counter md3 k
         = readIn counter md k + delta * hit (violatesIn today k cert).
Proof.
  unfold ethics, violatesIn. fold (violationKey today cert).
  destruct (statusMentions (cert !! "STATUS") "ethics").
  - destruct (bump_any ethicsPlus md (violationKey today cert))
      as (md3 & -> & Hi & Hc).
    exists md3. split; [done|]. split; [done|].
    intros counter delta k H0 Hd Hk.
    rewrite (Hc counter delta k) by done. simpl. decide_hits.
  - exists md. split; [done|]. split; [done|].
    intros counter delta k _ _ _. simpl. lia.
Qed.

(** What one record does to every counter read under a plain name, when
    its issue month is a plain name: the callback does not throw, and each
    counter moves by 0 or 1 as the conditions of the source say. *)
Lemma trendStep_counts newDate today md (cert : record) :
  plainMonth (getMonthEntry (cert !! "ISSUE DATE")) ->
  exists md', trendStep newDate today md cert = Ok md'
    /\ (noInheritedKeys md -> noInheritedKeys md')
    /\ forall k, Obj.objectPrototype k = None ->
      readIn expired md' k
      = readIn expired md k + hit (expiresIn newDate today k cert)
      /\ readIn lapsed md' k = readIn lapsed md k + hit (lapsesIn k cert)
      /\ readIn ethicsViolations md' k
         = readIn ethicsViolations md k + hit (violatesIn today k cert)
      /\ forall c, Obj.objectPrototype c = None ->
           readIn (certified c) md' k
           = readIn (certified c) md k + hit (certifiedIn k c cert).
Proof.
  intros Hp. unfold trendStep.
  destruct (newCertifications_counts (getMonthEntry (cert !! "ISSUE DATE"))
              (groupKey "CREDENTIAL" cert) md)
    as (md1 & -> & Hi1 & H1 & N1); [|done|].
  { intros m. apply getMonthEntry_nonempty. }
  simpl.
  destruct (lapsedExpired_any newDate today (cert !! "EXP DATE")
              (cert !! "STATUS") md1) as (md2 & -> & Hi2 & H2).
  simpl.
  destruct (ethics_any today cert md2) as (md3 & -> & Hi3 & H3).
  exists md3. split; [done|]. split; [auto|]. intros k Hk.
  unfold expiresIn, lapsesIn, certifiedIn.
  split; [|split; [|split]].
  - rewrite (H3 expired 0 k), (H2 expired 1 0 k), (H1 expired k);
      try done; try counter_facts. lia.
  - rewrite (H3 lapsed 0 k), (H2 lapsed 0 1 k), (H1 lapsed k);
      try done; try counter_facts. lia.
  - rewrite (H3 ethicsViolations 1 k), (H2 ethicsViolations 0 0 k),
      (H1 ethicsViolations k); try done; try counter_facts. lia.
  - intros c Hc.
    rewrite (H3 (certified c) 0 k), (H2 (certified c) 0 0 k), (N1 c k);
      try done; try apply certified_fresh;
      try (intros b; unfold certified; simpl; lia).
    lia.
Qed.

Lemma trendStep_throws newDate today md (cert : record) m :
  getMonthEntry (cert !! "ISSUE DATE") = Some m ->
  Obj.objectPrototype m <> None ->
  noInheritedKeys md ->
  exists e, trendStep newDate today md cert = Throw e
            /\ errorName e = "TypeError".
Proof.
  intros Hm Hp Hi. unfold trendStep. rewrite Hm.
  destruct (newCertifications_throws m (groupKey "CREDENTIAL" cert) md)
    as (e & -> & He); try done.
  - by apply (getMonthEntry_nonempty (cert !! "ISSUE DATE")).
  - by exists e.
Qed.

Lemma countWhere_cons test (x : record) l :
  countWhere test (x :: l) = hit (test x) + countWhere test l.
Proof.
  unfold countWhere, hit. simpl. destruct (test x); simpl; lia.
Qed.

(** The whole [forEach]: with every issue month a plain name it runs to
    the end, and each counter has moved by the number of records that the
    source's conditions select. *)
Lemma forEach_trendStep_counts newDate today records :
  Forall (fun cert : record =>
            plainMonth (getMonthEntry (cert !! "ISSUE DATE"))) records ->
  forall md,
  exists md', forEach (trendStep newDate today) records md = Ok md'
    /\ (noInheritedKeys md -> noInheritedKeys md')
    /\ forall k, Obj.objectPrototype k = None ->
      readIn expired md' k
      = readIn expired md k + countWhere (expiresIn newDate today k) records
      /\ readIn lapsed md' k
         = readIn lapsed md k + countWhere (lapsesIn k) records
      /\ readIn ethicsViolations md' k
         = readIn ethicsViolations md k
           + countWhere (violatesIn today k) records
      /\ forall c, Obj.objectPrototype c = None ->
           readIn (certified c) md' k
           = readIn (certified c) md k + countWhere (certifiedIn k c) records.
Proof.
  induction 1 as [|cert records Hp _ IH]; intros md; simpl.
  - exists md. split; [done|]. split; [done|]. intros k _.
    unfold countWhere. simpl. repeat split; intros; lia.
  - destruct (trendStep_counts newDate today md cert Hp)
      as (md1 & -> & Hi1 & H1).
    simpl. destruct (IH md1) as (md' & -> & Hi' & H').
    exists md'. split; [done|]. split; [auto|]. intros k Hk.
    destruct (H1 k Hk) as (A1 & A2 & A3 & A4).
    destruct (H' k Hk) as (B1 & B2 & B3 & B4).
    rewrite !countWhere_cons. split; [lia|]. split; [lia|]. split; [lia|].
    intros c Hc. rewrite countWhere_cons, (B4 c Hc), (A4 c Hc). lia.
Qed.

Lemma forEach_trendStep_throws newDate today records :
  Exists (fun cert : record =>
            exists m, getMonthEntry (cert !! "ISSUE DATE") = Some m
                      /\ Obj.objectPrototype m <> None) records ->
  forall md, noInheritedKeys md ->
  exists e, forEach (trendStep newDate today) records md = Throw e
            /\ errorName e = "TypeError".
Proof.
  induction records as [|cert records IH]; intros Hex md Hi.
  - by apply Exists_nil in Hex.
  - simpl.
    destruct (getMonthEntry (cert !! "ISSUE DATE")) as [m|] eqn:Em.
    + destruct (Obj.objectPrototype m) as [i|] eqn:Hp.
      * destruct (trendStep_throws newDate today md cert m) as (e & -> & He);
          try done; try (by rewrite Hp).
        by exists e.
      * destruct (trendStep_counts newDate today md cert)
          as (md1 & -> & Hi1 & _); [by rewrite Em|].
        simpl. apply IH; [|auto].
        apply Exists_cons in Hex as [(m' & Hm' & Hp')|Hex]; [|done].
        congruence.
    + destruct (trendStep_counts newDate today md cert)
        as (md1 & -> & Hi1 & _); [by rewrite Em|].
      simpl. apply IH; [|auto].
      apply Exists_cons in Hex as [(m' & Hm' & Hp')|Hex]; [|done].
      congruence.
Qed.

Lemma elem_of_keys {V} (o : Obj.t V) k : k ∈ Obj.keys o <-> k ∈ o.*1.
Proof.
  unfold Obj.keys. rewrite elem_of_app.
  rewrite (stableSort_perm Obj.compareIndexKeys).
  rewrite !list_elem_of_In, !List.filter_In, <- !list_elem_of_In.
  destruct (Obj.isIndex k); simpl; intuition congruence.
Qed.

Lemma elem_of_keys_own {V} (o : Obj.t V) k : k ∈ o.*1 <-> is_Some (Obj.own o k).
Proof.
  split.
  - intros Hk. destruct (Obj.own o k) eqn:E; [done|].
    by apply own_None_keys in E.
  - intros [v Hv]. by eapply own_Some_keys.
Qed.

Lemma own_fold_set {V} (f : string -> V) (l : list string) (o : Obj.t V) k :
  k <> "__proto__" ->
  Obj.own (fold_left (fun acc m => Obj.set acc m (f m)) l o) k
  = if decide (k ∈ l) then Some (f k) else Obj.own o k.
Proof.
  intros Hk. revert o. induction l as [|a l IH]; intros o; cbn [fold_left].
  - case_decide as E; [|done]. by apply not_elem_of_nil in E.
  - rewrite IH. destruct (decide (k = a)) as [->|Hne].
    + rewrite own_set_eq by done.
      rewrite (decide_True (P := a ∈ a :: l)) by left.
      by destruct (decide (a ∈ l)).
    + rewrite own_set_ne by done.
      case_decide as E1; case_decide as E2; try done.
      * exfalso. apply E2. by right.
      * exfalso. apply elem_of_cons in E2 as [?|?]; done.
Qed.

(** The response keeps every bucket: a counter read from the formatted
    object is the counter of [monthlyData]. *)
Lemma readOut_formatMonthly counter md k :
  k <> "__proto__" ->
  readOut counter (formatMonthly md) k = readIn counter md k.
Proof.
  intros Hk. unfold readOut, formatMonthly, readIn.
  rewrite (own_fold_set (Obj.get md)) by done. simpl.
  case_decide as E.
  - rewrite (stableSort_perm defaultCompare), elem_of_keys, elem_of_keys_own
      in E.
    destruct E as [b Hb]. unfold Obj.get. by rewrite Hb.
  - rewrite (stableSort_perm defaultCompare), elem_of_keys, elem_of_keys_own
      in E.
    destruct (Obj.own md k); [|done]. exfalso. by apply E.
Qed.

Lemma substring_length_le s n : (String.length (substring s 0 n) <= n)%nat.
Proof.
  unfold substring. rewrite Nat.sub_0_r. revert s.
  induction n as [|n IH]; intros [|c s]; simpl; try lia.
  specialize (IH s). lia.
Qed.

(** A month entry is at most seven code units long, so the only name of
    [Object.prototype] it can be is [valueOf]. *)
Lemma month_inherited_valueOf v m :
  getMonthEntry v = Some m ->
  Obj.objectPrototype m = None <-> m <> "valueOf".
Proof.
  intros Hm.
  assert (String.length m <= 7)%nat as Hlen.
  { destruct v as [[|s]|]; simpl in Hm; try done.
    destruct (String.eqb s ""); [done|]. injection Hm as <-.
    apply substring_length_le. }
  split.
  - by intros Hp ->.
  - intros Hne. unfold Obj.objectPrototype. simpl.
    repeat match goal with
           | |- context [String.eqb m ?s] =>
               destruct (String.eqb_spec m s) as [->|?];
               [first [done | simpl in Hlen; lia]|]
           end.
    done.
Qed.

Lemma plain_issue_months (records : list record) :
  Forall (fun cert : record =>
            getMonthEntry (cert !! "ISSUE DATE") <> Some "valueOf") records ->
  Forall (fun cert : record =>
            plainMonth (getMonthEntry (cert !! "ISSUE DATE"))) records.
Proof.
  intros H. eapply Forall_impl; [exact H|]. simpl. intros cert Hne.
  destruct (getMonthEntry (cert !! "ISSUE DATE")) as [m|] eqn:E; simpl; [|done].
  apply (month_inherited_valueOf _ _ E). congruence.
Qed.

Lemma noInheritedKeys_empty : noInheritedKeys (Obj.empty (V := Bucket)).
Proof. done. Qed.

(** X9: the scalar counters of the trend builder, over a whole run.  When no
    ISSUE DATE begins with "valueOf", the builder returns, and for every
    month name that [Object.prototype] does not define the response holds
    under [expired] the number of records that expire in that month, in the
    clock's month, with a status other than "Active"; under [lapsed] the
    number of records that expire in that month with a status mentioning
    "lapsed"; and under [ethicsViolations] the number of records whose
    status mentions "ethics" and whose issue month, or the clock's month
    without one, is that month. *)
Theorem monthly_counters_count_records
    (newDate : string -> option Instant) (today : Instant)
    (records : list record) :
  Forall (fun cert : record =>
            getMonthEntry (cert !! "ISSUE DATE") <> Some "valueOf") records ->
  exists formatted,
    buildMonthlyTrends newDate today records = Ok formatted
    /\ forall month, Obj.objectPrototype month = None ->
         readOut expired formatted month
         = countWhere (expiresIn newDate today month) records
         /\ readOut lapsed formatted month
            = countWhere (lapsesIn month) records
         /\ readOut ethicsViolations formatted month
            = countWhere (violatesIn today month) records.
Proof.
  intros Hp%plain_issue_months. unfold buildMonthlyTrends.
  destruct (forEach_trendStep_counts newDate today records Hp Obj.empty)
    as (md & -> & _ & Hc).
  eexists. split; [done|]. intros month Hm.
  destruct (Hc month Hm) as (H1 & H2 & H3 & _).
  rewrite !readOut_formatMonthly by by apply not_inherited_not_proto.
  rewrite H1, H2, H3. done.
Qed.

Lemma monthly_counters_count_records_witness :
  exists formatted,
    buildMonthlyTrends isoDate june15 [certExpired; certLapsedEthics; certExpired]
    = Ok formatted
    /\ forall month, Obj.objectPrototype month = None ->
         readOut expired formatted month
         = countWhere (expiresIn isoDate june15 month)
             [certExpired; certLapsedEthics; certExpired]
         /\ readOut lapsed formatted month
            = countWhere (lapsesIn month)
                [certExpired; certLapsedEthics; certExpired]
         /\ readOut ethicsViolations formatted month
            = countWhere (violatesIn june15 month)
                [certExpired; certLapsedEthics; certExpired].
Proof.
  apply (monthly_counters_count_records isoDate june15
           [certExpired; certLapsedEthics; certExpired]).
  repeat constructor; intros H; vm_compute in H; discriminate.
Defined.

(** X10: [newlyCertified], over a whole run.  When no ISSUE DATE begins with
    "valueOf", the number the response holds for a credential in a month
    (both names that [Object.prototype] does not define) is the number of
    records with that issue month and that credential, "Unknown" standing
    for a missing one. *)
Theorem newly_certified_counts_records
    (newDate : string -> option Instant) (today : Instant)
    (records : list record) :
  Forall (fun cert : record =>
            getMonthEntry (cert !! "ISSUE DATE") <> Some "valueOf") records ->
  exists formatted,
    buildMonthlyTrends newDate today records = Ok formatted
    /\ forall month credential,
         Obj.objectPrototype month = None ->
         Obj.objectPrototype credential = None ->
         readOut (certified credential) formatted month
         = countWhere (certifiedIn month credential) records.
Proof.
  intros Hp%plain_issue_months. unfold buildMonthlyTrends.
  destruct (forEach_trendStep_counts newDate today records Hp Obj.empty)
    as (md & -> & _ & Hc).
  eexists. split; [done|]. intros month credential Hm Hcr.
  destruct (Hc month Hm) as (_ & _ & _ & H4).
  rewrite readOut_formatMonthly by by apply not_inherited_not_proto.
  rewrite (H4 credential Hcr). unfold readIn. simpl. lia.
Qed.

Lemma newly_certified_counts_records_witness :
  exists formatted,
    buildMonthlyTrends isoDate june15 [certIsoDate; certBasicDate; certIsoDate]
    = Ok formatted
    /\ forall month credential,
         Obj.objectPrototype month = None ->
         Obj.objectPrototype credential = None ->
         readOut (certified credential) formatted month
         = countWhere (certifiedIn month credential)
             [certIsoDate; certBasicDate; certIsoDate].
Proof.
  apply (newly_certified_counts_records isoDate june15
           [certIsoDate; certBasicDate; certIsoDate]).
  repeat constructor; intros H; vm_compute in H; discriminate.
Defined.

(** X11: the trend builder throws exactly when some ISSUE DATE begins with
    "valueOf".  [monthlyData] is a plain object, so the read of that month
    finds the built-in method, no bucket is created, and the read of its
    [newlyCertified] gives [undefined], whose property read is a TypeError;
    on every other input the builder returns. *)
Theorem trends_throw_exactly_on_valueOf
    (newDate : string -> option Instant) (today : Instant)
    (records : list record) :
  ((exists e, buildMonthlyTrends newDate today records = Throw e
              /\ errorName e = "TypeError")
   <-> Exists (fun cert : record =>
                 getMonthEntry (cert !! "ISSUE DATE") = Some "valueOf")
         records)
  /\ ((exists formatted,
         buildMonthlyTrends newDate today records = Ok formatted)
      <-> Forall (fun cert : record =>
                    getMonthEntry (cert !! "ISSUE DATE") <> Some "valueOf")
            records).
Proof.
  assert (Forall (fun cert : record =>
                    getMonthEntry (cert !! "ISSUE DATE") <> Some "valueOf")
            records ->
          exists formatted,
            buildMonthlyTrends newDate today records = Ok formatted) as Hok.
  { intros Hp%plain_issue_months. unfold buildMonthlyTrends.
    destruct (forEach_trendStep_counts newDate today records Hp Obj.empty)
      as (md & -> & _). by eexists. }
  assert (Exists (fun cert : record =>
                    getMonthEntry (cert !! "ISSUE DATE") = Some "valueOf")
            records ->
          exists e, buildMonthlyTrends newDate today records = Throw e
                    /\ errorName e = "TypeError") as Hthrow.
  { intros Hex. unfold buildMonthlyTrends.
    destruct (forEach_trendStep_throws newDate today records)
      with (md := Obj.empty (V := Bucket)) as (e & -> & He).
    - eapply Exists_impl; [exact Hex|]. intros cert Hv. by exists "valueOf".
    - apply noInheritedKeys_empty.
    - by exists e. }
  assert ({Exists (fun cert : record =>
                     getMonthEntry (cert !! "ISSUE DATE") = Some "valueOf")
             records}
          + {Forall (fun cert : record =>
                       getMonthEntry (cert !! "ISSUE DATE") <> Some "valueOf")
               records}) as Hdec.
  { destruct (decide (Exists (fun cert : record =>
                     getMonthEntry (cert !! "ISSUE DATE") = Some "valueOf")
             records)) as [H|H]; [by left|right].
    by apply not_Exists_Forall in H; [|intros x; apply _]. }
  split; split; try done.
  - intros (e & He & _). destruct Hdec as [H|H]; [done|].
    destruct (Hok H) as (formatted & Hf). congruence.
  - intros (formatted & Hf). destruct Hdec as [H|H]; [|done].
    destruct (Hthrow H) as (e & He & _). congruence.
Qed.

(** ** The table query, page by page *)

Lemma slice_from_start {A} (array : list A) (s len : Z) :
  0 <= s -> 0 <= len ->
  slice array (Num s) (Num (s + len))
  = take (Z.to_nat len) (drop (Z.to_nat s) array).
Proof.
  intros Hs Hl. unfold slice. simpl.
  destruct (Z.ltb_spec s 0); [lia|].
  destruct (Z.ltb_spec (s + len) 0); [lia|].
  destruct (Z.le_gt_cases (Z.of_nat (List.length array)) s) as [Hout|Hin].
  - rewrite !drop_ge by lia. by rewrite !take_nil.
  - rewrite (Z.min_l s) by lia.
    destruct (Z.le_gt_cases (s + len) (Z.of_nat (List.length array))).
    + rewrite Z.min_l by lia. f_equal. lia.
    + rewrite Z.min_r by lia.
      rewrite !take_ge; [done | |]; rewrite length_drop; lia.
Qed.

Lemma slice_sublist {A} (array : list A) (from to : jsnum) :
  slice array from to `sublist_of` array.
Proof.
  unfold slice. etrans; [apply sublist_take | apply sublist_drop].
Qed.

Lemma applySearch_sublist searchValue (records : list record) :
  applySearch searchValue records `sublist_of` records.
Proof.
  unfold applySearch. destruct (String.eqb searchValue ""); [done|].
  apply filter_sublist.
Qed.

Lemma applySort_perm index direction (filtered : list record) :
  applySort index direction filtered ≡ₚ filtered.
Proof.
  unfold applySort. repeat case_match; try done. apply stableSort_perm.
Qed.

(** X12: the pages tile the result.  For a page size [n > 0], the pages
    0, 1, ..., k-1 of a query, one after the other, are the first [k * n]
    records of the filtered and sorted sequence: no record is skipped or
    served twice between pages, and enough pages give the whole
    sequence. *)
Theorem pages_tile_the_result
    (p : Params) (records : list record) (n : Z) (k : nat) :
  0 < n ->
  concat ((fun i => data (queryTable (page p i n) records)) <$> seq 0 k)
  = take (k * Z.to_nat n) (sortedFiltered p records).
Proof.
  intros Hn. induction k as [|k IH]; [done|].
  rewrite seq_S, fmap_app, concat_app, IH. simpl. rewrite app_nil_r.
  unfold queryTable. simpl. fold (sortedFiltered p records).
  rewrite slice_from_start by lia.
  replace (Z.to_nat (Z.of_nat k * n)) with (k * Z.to_nat n)%nat by lia.
  rewrite take_take_drop. f_equal. lia.
Qed.

Lemma pages_tile_the_result_witness :
  concat ((fun i =>
             data (queryTable (page byNameAscending i 2)
                     [certNameB; certNameA; certNullName]))
            <$> seq 0 2)
  = take (2 * Z.to_nat 2)
      (sortedFiltered byNameAscending [certNameB; certNameA; certNullName]).
Proof.
  apply (pages_tile_the_result byNameAscending
           [certNameB; certNameA; certNullName] 2 2).
  lia.
Defined.

(** X13: a negative [length].  From [start = 0] the page is cut by
    [slice(0, -m)]: it holds the sequence without its last [m] records.
    With the -1 that DataTables sends for "all records", the last record
    is left out. *)
Theorem negative_length_drops_the_tail
    (p : Params) (records : list record) (m : Z) :
  0 < m -> start p = Num 0 -> pageLength p = Num (- m) ->
  data (queryTable p records)
  = take (List.length (sortedFiltered p records) - Z.to_nat m)
      (sortedFiltered p records).
Proof.
  intros Hm Hs Hl. unfold queryTable. simpl.
  fold (sortedFiltered p records). rewrite Hs, Hl. unfold slice. simpl.
  destruct (Z.ltb_spec (0 + - m) 0); [|lia].
  rewrite (Z.min_l 0) by lia. simpl. f_equal. lia.
Qed.

Lemma negative_length_drops_the_tail_witness :
  data (queryTable
          {| draw := Some "1"; start := Num 0; pageLength := Num (- 1);
             searchValue := ""; orderColumnIndex := None;
             orderDirection := None |}
          [certNameA; certNameB; certNullName])
  = [certNameA; certNameB].
Proof.
  rewrite (negative_length_drops_the_tail _ _ 1); [reflexivity|lia|done|done].
Defined.

(** X14: a [start] or [length] that [parseInt] cannot read is NaN, and the
    page is empty: [slice] takes NaN as 0 and [start + length] is NaN, so
    the cut ends at 0.  No error is raised. *)
Theorem unreadable_paging_gives_empty_page
    (urlParams : list (string * string)) (records : list record) :
  parseInt (paramOr (getParam urlParams "start") "0") = NaN
  \/ parseInt (paramOr (getParam urlParams "length") "10") = NaN ->
  data (queryTable (readParams urlParams) records) = [].
Proof.
  intros H. unfold queryTable, readParams. simpl.
  set (l := applySort _ _ _). clearbody l.
  assert (forall from, slice l from NaN = []) as Hnan.
  { intros from. unfold slice. simpl.
    replace (Z.to_nat (Z.min 0 (Z.of_nat (List.length l)) - _)) with 0%nat;
      [done|].
    destruct (Z.ltb_spec (toInteger from) 0); lia. }
  destruct H as [-> | ->].
  - apply Hnan.
  - destruct (parseInt _); apply Hnan.
Qed.

Lemma unreadable_paging_gives_empty_page_witness :
  data (queryTable (readParams [("start", "0"); ("length", "all")])
          [certNameA; certNameB; certNullName]) = [].
Proof.
  apply (unreadable_paging_gives_empty_page
           [("start", "0"); ("length", "all")]).
  right. reflexivity.
Defined.

(** X15: nothing on a page that was not asked for.  The page is a
    sub-multiset of the input records (no record appears more often than
    upstream sent it), every record on it passes the search when there is
    one, the sequence the pages are cut from holds exactly the records
    that pass, and the counts are ordered:
    [data.length <= recordsFiltered <= recordsTotal]. *)
Theorem page_records_are_matching_inputs (p : Params) (records : list record) :
  data (queryTable p records) ⊆+ records
  /\ Forall (fun cert => searchValue p = ""
                         \/ matchesSearch (searchValue p) cert = true)
       (data (queryTable p records))
  /\ sortedFiltered p records
     ≡ₚ (if String.eqb (searchValue p) "" then records
         else List.filter (matchesSearch (searchValue p)) records)
  /\ Z.of_nat (List.length (data (queryTable p records)))
     <= recordsFiltered (queryTable p records)
     <= recordsTotal (queryTable p records).
Proof.
  assert (data (queryTable p records) `sublist_of` sortedFiltered p records)
    as Hsub by apply slice_sublist.
  assert (sortedFiltered p records
          ≡ₚ applySearch (searchValue p) records) as Hperm
      by apply applySort_perm.
  split; [|split; [|split]].
  - etrans; [by apply sublist_submseteq|]. rewrite Hperm.
    apply sublist_submseteq, applySearch_sublist.
  - apply Forall_forall. intros cert Hin.
    eapply elem_of_sublist in Hin; [|exact Hsub]. rewrite Hperm in Hin.
    unfold applySearch in Hin.
    destruct (String.eqb_spec (searchValue p) ""); [by left|right].
    apply list_elem_of_In, List.filter_In in Hin. tauto.
  - exact Hperm.
  - apply sublist_length in Hsub.
    pose proof (sublist_length _ _ (applySearch_sublist (searchValue p) records)).
    apply Permutation_length in Hperm.
    unfold queryTable in *. simpl in *.
    unfold sortedFiltered in *. lia.
Qed.

(** ** Reading the paging parameters *)









(** ** The router and the export, end to end *)

Lemma fetchFromNocoDB_ok (fetch : Network) (env : Env) (reply : Reply) :
  fetch (NOCODB_BASE_URL env +:+ "@u5qvrik517o/records?limit=10000")
    [("xc-token", NOCODB_API_TOKEN env)] = Fulfilled reply ->
  ok reply = true ->
  fetchFromNocoDB fetch env CERTIFICATIONS_TABLE_ID [("limit", "10000")]
  = Fulfilled (replyList reply).
Proof.
  intros Hf Hok. unfold fetchFromNocoDB.
  change (NOCODB_BASE_URL env +:+ CERTIFICATIONS_TABLE_ID +:+ "/records"
          +:+ _)
    with (NOCODB_BASE_URL env +:+ "@u5qvrik517o/records?limit=10000").
  rewrite Hf. simpl. by rewrite Hok.
Qed.

(** X17: the three working endpoints serve one upstream answer.  Each asks
    the upstream for [<base>@u5qvrik517o/records?limit=10000] with the
    token in the [xc-token] header; when the answer is ok, the router
    fulfils with status 200 and the CORS headers: /api/certifications with
    the records as they came, /api/summary with their summary, and
    /api/monthly-trends with their monthly trends, or with the rejection of
    the error the trend builder throws.  The query string of the request
    plays no part. *)
Theorem endpoints_serve_the_upstream_answer
    (fetch : Network) (newDate : string -> option Instant) (today : Instant)
    (request : Request) (env : Env) (reply : Reply)
    (query : list (string * string)) :
  method request <> "OPTIONS" ->
  fetch (NOCODB_BASE_URL env +:+ "@u5qvrik517o/records?limit=10000")
    [("xc-token", NOCODB_API_TOKEN env)] = Fulfilled reply ->
  ok reply = true ->
  handleApiRequest fetch newDate today request
    (mkUrl "/api/certifications" query) env
  = Fulfilled (jsonResponse (JsonRecords (replyList reply)) 200 apiHeaders)
  /\ handleApiRequest fetch newDate today request
       (mkUrl "/api/summary" query) env
     = Fulfilled (jsonResponse (JsonSummary (summarize (replyList reply)))
                    200 apiHeaders)
  /\ handleApiRequest fetch newDate today request
       (mkUrl "/api/monthly-trends" query) env
     = match buildMonthlyTrends newDate today (replyList reply) with
       | Ok formatted =>
           Fulfilled (jsonResponse (JsonTrends formatted) 200 apiHeaders)
       | Throw e => Rejected e
       end.
Proof.
  intros Hm Hf Hok. rewrite !router_hands_on_the_promise by done. simpl.
  unfold fetchAllCertifications, getCertificationsSummary, getMonthlyTrends.
  rewrite (fetchFromNocoDB_ok fetch env reply Hf Hok). simpl.
  repeat split. by destruct (buildMonthlyTrends _ _ _).
Qed.

Lemma endpoints_serve_the_upstream_answer_witness :
  handleApiRequest
    (fun address _ =>
       if String.eqb address
            "https://db.example/@u5qvrik517o/records?limit=10000"
       then Fulfilled (mkReply 200 "OK" "" [certNoCity; certProto])
       else Rejected (TypeError "fetch failed"))
    isoDate june15 (mkRequest "GET" (mkUrl "/api/summary" []))
    (mkUrl "/api/summary" [("draw", "1")])
    (mkEnv "https://db.example/" "token")
  = Fulfilled (jsonResponse (JsonSummary (summarize [certNoCity; certProto]))
                 200 apiHeaders).
Proof.
  apply (endpoints_serve_the_upstream_answer
           (fun address _ =>
              if String.eqb address
                   "https://db.example/@u5qvrik517o/records?limit=10000"
              then Fulfilled (mkReply 200 "OK" "" [certNoCity; certProto])
              else Rejected (TypeError "fetch failed"))
           isoDate june15 (mkRequest "GET" (mkUrl "/api/summary" []))
           (mkEnv "https://db.example/" "token")
           (mkReply 200 "OK" "" [certNoCity; certProto])
           [("draw", "1")]); [discriminate | reflexivity | reflexivity].
Defined.

Lemma endpoints_answer_with_headers fetch newDate today request env response :
  (fetchAllCertifications fetch request env apiHeaders = Fulfilled response
   \/ getCertificationsSummary fetch request env apiHeaders
      = Fulfilled response
   \/ getMonthlyTrends fetch newDate today request env apiHeaders
      = Fulfilled response
   \/ getTableData fetch request env apiHeaders = Fulfilled response) ->
  headers response = apiHeaders /\ body response <> None.
Proof.
  unfold fetchAllCertifications, getCertificationsSummary, getMonthlyTrends.
  destruct (fetchFromNocoDB fetch env CERTIFICATIONS_TABLE_ID
              [("limit", "10000")]) as [allCertifications|e]; simpl.
  - destruct (buildMonthlyTrends newDate today allCertifications); simpl;
      intros [H|[H|[H|H]]]; by simplify_eq.
  - intros [H|[H|[H|H]]]; by simplify_eq.
Qed.

(** X18: every response of the router carries the CORS headers, and only
    the answer to a preflight has no body.  (A promise the router rejects
    carries none: the platform answers in its place.) *)
Theorem router_responses_carry_cors_headers
    fetch newDate today request url env response :
  handleApiRequest fetch newDate today request url env = Fulfilled response ->
  headers response = apiHeaders
  /\ (body response = None <-> method request = "OPTIONS").
Proof.
  destruct (decide (method request = "OPTIONS")) as [Hm|Hm].
  { unfold handleApiRequest. rewrite Hm. simpl. by intros [= <-]. }
  rewrite router_hands_on_the_promise by done.
  assert (headers response = apiHeaders /\ body response <> None
          -> headers response = apiHeaders
             /\ (body response = None <-> method request = "OPTIONS"))
    as Hgoal by (intros [? ?]; split; [done | split; done]).
  repeat case_match; intros Hr; apply Hgoal;
    try (apply (endpoints_answer_with_headers fetch newDate today request env);
         auto; fail).
  by simplify_eq.
Qed.

Lemma router_responses_carry_cors_headers_witness :
  headers {| body := None; status := 200; headers := apiHeaders |}
  = apiHeaders
  /\ (body {| body := None; status := 200; headers := apiHeaders |} = None
      <-> method (mkRequest "OPTIONS" (mkUrl "/api/summary" [])) = "OPTIONS").
Proof.
  apply (router_responses_carry_cors_headers
           (fun _ _ => Rejected (TypeError "fetch failed")) isoDate june15
           (mkRequest "OPTIONS" (mkUrl "/api/summary" []))
           (mkUrl "/api/summary" []) (mkEnv "https://db.example/" "token")).
  reflexivity.
Defined.

(** X19: a path under /api/ never reaches the asset handler.  Past the
    preflight, a path that is not exactly one of the four endpoints is
    answered with the JSON 404 of the router, whatever the asset handler
    and the upstream would answer; the entry-document fallback does not
    apply there. *)
Theorem unknown_api_path_gets_the_json_404
    (fetch : Network) (newDate : string -> option Instant) (today : Instant)
    (assets : Request -> promise Response) (request : Request) (env : Env) :
  String.prefix "/api/" (pathname (requestUrl request)) = true ->
  method request <> "OPTIONS" ->
  pathname (requestUrl request)
    ∉ ["/api/certifications"; "/api/summary"; "/api/monthly-trends";
       "/api/table-data"] ->
  defaultFetch fetch newDate today assets request env
  = Fulfilled (jsonResponse (JsonError "API endpoint not found" None) 404
                 apiHeaders).
Proof.
  intros Hpath Hm Hnot. unfold defaultFetch. rewrite Hpath. simpl.
  rewrite router_hands_on_the_promise by done.
  repeat (case_match;
          [exfalso; apply Hnot;
           match goal with
           | H : String.eqb _ _ = true |- _ =>
               apply String.eqb_eq in H; rewrite H
           end; set_solver|]).
  done.
Qed.

Lemma unknown_api_path_gets_the_json_404_witness :
  defaultFetch (fun _ _ => Rejected (TypeError "fetch failed")) isoDate june15
    (fun _ => Rejected (TypeError "fetch failed"))
    (mkRequest "GET" (mkUrl "/api/summary/" []))
    (mkEnv "https://db.example/" "token")
  = Fulfilled (jsonResponse (JsonError "API endpoint not found" None) 404
                 apiHeaders).
Proof.
  apply unknown_api_path_gets_the_json_404; [reflexivity | discriminate |].
  set_solver.
Defined.

(** X20: with an entry document that can be fetched, the static branch
    always answers and never with 404.  For a path outside /api/, the
    worker's promise is fulfilled; the response is the asset handler's own
    when that is not a 404, and otherwise (a 404 or a failure) the entry
    document with status 200 and content type text/html. *)
Theorem static_branch_falls_back_to_index
    (fetch : Network) (newDate : string -> option Instant) (today : Instant)
    (assets : Request -> promise Response) (request : Request) (env : Env)
    (indexResponse : Response) :
  String.prefix "/api/" (pathname (requestUrl request)) = false ->
  assets indexRequest = Fulfilled indexResponse ->
  responseOk indexResponse = true ->
  exists response,
    defaultFetch fetch newDate today assets request env = Fulfilled response
    /\ status response <> 404
    /\ (assets request = Fulfilled response
        \/ (response = spaFallback indexResponse
            /\ forall found, assets request = Fulfilled found ->
                             status found = 404)).
Proof.
  intros Hpath Hindex Hok. unfold defaultFetch. rewrite Hpath.
  destruct (assets request) as [found|e] eqn:Ha; simpl.
  - destruct (Z.eqb_spec (status found) 404) as [H404|H404]; simpl.
    + rewrite Hindex. simpl. rewrite Hok. eexists. split; [done|].
      split; [done|]. right. split; [done|]. by intros ? [= <-].
    + exists found. split; [done|]. split; [done|]. by left.
  - rewrite Hindex. simpl. rewrite Hok. eexists. split; [done|].
    split; [done|]. right. split; [done|]. by intros ? [=].
Qed.

Lemma static_branch_falls_back_to_index_witness :
  exists response,
    defaultFetch (fun _ _ => Rejected (TypeError "fetch failed")) isoDate june15
      (fun request =>
         if String.eqb (pathname (requestUrl request)) "/index.html"
         then Fulfilled {| body := Some (AssetContent "<html></html>");
                           status := 200; headers := [] |}
         else Fulfilled {| body := None; status := 404; headers := [] |})
      (mkRequest "GET" (mkUrl "/dashboard" []))
      (mkEnv "https://db.example/" "token")
    = Fulfilled response
    /\ status response <> 404.
Proof.
  destruct (static_branch_falls_back_to_index
              (fun _ _ => Rejected (TypeError "fetch failed")) isoDate june15
              (fun request =>
                 if String.eqb (pathname (requestUrl request)) "/index.html"
                 then Fulfilled {| body := Some (AssetContent "<html></html>");
                                   status := 200; headers := [] |}
                 else Fulfilled {| body := None; status := 404;
                                   headers := [] |})
              (mkRequest "GET" (mkUrl "/dashboard" []))
              (mkEnv "https://db.example/" "token")
              {| body := Some (AssetContent "<html></html>");
                 status := 200; headers := [] |})
    as (response & Hr & Hs & _); [reflexivity | reflexivity | reflexivity |].
  by exists response.
Defined.

(** ** The months of the trend response *)

Lemma get_Own_own {V} (o : Obj.t V) k v :
  Obj.get o k = Obj.Own v -> Obj.own o k = Some v.
Proof.
  unfold Obj.get. destruct (Obj.own o k); [congruence|].
  by destruct (Obj.objectPrototype k).
Qed.

(** An assignment to a property the object has keeps its set of keys. *)
Lemma dom_set_own {V} (o : Obj.t V) m v k :
  is_Some (Obj.own o m) ->
  is_Some (Obj.own (Obj.set o m v) k) <-> is_Some (Obj.own o k).
Proof.
  intros Hm. destruct (decide (m = k)) as [<-|Hne].
  - rewrite own_set_same by done. split; [done | by eexists].
  - by rewrite own_set_ne.
Qed.

Lemma dom_ensureBucket md m k :
  Obj.objectPrototype k = None ->
  is_Some (Obj.own (ensureBucket md m) k) <-> is_Some (Obj.own md k) \/ m = k.
Proof.
  intros Hk. unfold ensureBucket, Obj.get.
  destruct (Obj.own md m) as [b|] eqn:Em.
  - split; [auto|]. intros [Hs | <-]; [done | by rewrite Em].
  - destruct (Obj.objectPrototype m) eqn:Hm.
    + split; [auto|]. intros [Hs | <-]; [done | congruence].
    + destruct (decide (m = k)) as [<-|Hne].
      * rewrite own_set_eq by by apply not_inherited_not_proto.
        split; [auto | by eexists].
      * rewrite own_set_ne by done. split; [auto|]. by intros [Hs | Hs].
Qed.

Lemma dom_bump update md m md' k :
  bump update md m = Ok md' ->
  is_Some (Obj.own md' k) <-> is_Some (Obj.own md k).
Proof.
  unfold bump. destruct (Obj.get md m) as [b| |] eqn:E; intros [= <-]; [|done].
  apply dom_set_own. apply get_Own_own in E. by rewrite E.
Qed.

Lemma dom_addNewlyCertified md m credential md' k :
  addNewlyCertified md m credential = Ok md' ->
  is_Some (Obj.own md' k) <-> is_Some (Obj.own md k).
Proof.
  unfold addNewlyCertified.
  destruct (Obj.get md m) as [b| |] eqn:E; intros [= <-].
  apply dom_set_own. apply get_Own_own in E. by rewrite E.
Qed.

Lemma dom_newCertifications issueMonth credential md md1 k :
  (forall m, issueMonth = Some m -> m <> "") ->
  Obj.objectPrototype k = None ->
  newCertifications issueMonth credential md = Ok md1 ->
  is_Some (Obj.own md1 k)
  <-> is_Some (Obj.own md k) \/ issueMonth = Some k.
Proof.
  intros Hne Hk. unfold newCertifications.
  destruct issueMonth as [m|]; simpl.
  - specialize (Hne m eq_refl). apply String.eqb_neq in Hne. rewrite Hne.
    simpl. intros H. rewrite (dom_addNewlyCertified _ _ _ _ _ H).
    rewrite dom_ensureBucket by done. naive_solver.
  - intros [= <-]. naive_solver.
Qed.

Lemma dom_lapsedExpired newDate today expDate status md md2 k :
  Obj.objectPrototype k = None ->
  lapsedExpired newDate today expDate status md = Ok md2 ->
  is_Some (Obj.own md2 k)
  <-> is_Some (Obj.own md k) \/ getMonthEntry expDate = Some k.
Proof.
  intros Hk. unfold lapsedExpired.
  destruct (getMonthEntry expDate) as [me|] eqn:Ee.
  2:{ intros [= <-]. naive_solver. }
  rewrite (isMonth_getMonthEntry _ _ Ee). simpl.
  assert (forall mdx,
            expiredThisMonth newDate today expDate status me
              (ensureBucket md me) = Ok mdx ->
            is_Some (Obj.own mdx k) <-> is_Some (Obj.own md k) \/ me = k)
    as Hx.
  { intros mdx. unfold expiredThisMonth.
    destruct (sameMonth newDate today (orElse expDate "") && notActive status).
    - intros Hb. rewrite (dom_bump _ _ _ _ _ Hb). by apply dom_ensureBucket.
    - intros [= <-]. by apply dom_ensureBucket. }
  destruct (expiredThisMonth _ _ _ _ _ _) as [mdx|e]; [|done]. simpl.
  specialize (Hx mdx eq_refl). unfold lapsedByStatus.
  destruct (statusMentions status "lapsed").
  - intros Hb. rewrite (dom_bump _ _ _ _ _ Hb), dom_ensureBucket, Hx by done.
    naive_solver.
  - intros [= <-]. rewrite Hx. naive_solver.
Qed.

Lemma dom_ethics today (cert : record) md md3 k :
  Obj.objectPrototype k = None ->
  ethics today (getMonthEntry (cert !! "ISSUE DATE")) (cert !! "STATUS") md
  = Ok md3 ->
  is_Some (Obj.own md3 k)
  <-> is_Some (Obj.own md k) \/ violatesIn today k cert = true.
Proof.
  intros Hk. unfold ethics, violatesIn. fold (violationKey today cert).
  destruct (statusMentions (cert !! "STATUS") "ethics"); simpl.
  - intros H. rewrite (dom_bump _ _ _ _ _ H), dom_ensureBucket by done.
    by rewrite bool_decide_eq_true.
  - intros [= <-]. naive_solver.
Qed.

Lemma dom_trendStep newDate today md (cert : record) md' k :
  Obj.objectPrototype k = None ->
  trendStep newDate today md cert = Ok md' ->
  is_Some (Obj.own md' k)
  <-> is_Some (Obj.own md k) \/ touches today k cert = true.
Proof.
  intros Hk. unfold trendStep, touches.
  destruct (newCertifications _ _ _) as [md1|e] eqn:E1; [|done]. simpl.
  destruct (lapsedExpired _ _ _ _ _) as [md2|e] eqn:E2; [|done]. simpl.
  intros E3.
  rewrite (dom_ethics _ _ _ _ _ Hk E3), (dom_lapsedExpired _ _ _ _ _ _ _ Hk E2).
  rewrite (dom_newCertifications _ _ _ _ _
             (fun m => getMonthEntry_nonempty _ m) Hk E1).
  rewrite !orb_true_iff, !bool_decide_eq_true. tauto.
Qed.

Lemma dom_forEach_trendStep newDate today records md md' k :
  Obj.objectPrototype k = None ->
  forEach (trendStep newDate today) records md = Ok md' ->
  is_Some (Obj.own md' k)
  <-> is_Some (Obj.own md k)
      \/ Exists (fun cert => touches today k cert = true) records.
Proof.
  intros Hk. revert md. induction records as [|cert records IH]; intros md.
  - simpl. intros [= <-]. rewrite Exists_nil. tauto.
  - simpl. destruct (trendStep newDate today md cert) as [md1|e] eqn:E1;
      [|done].
    simpl. intros H. rewrite (IH md1 H), (dom_trendStep _ _ _ _ _ _ Hk E1).
    rewrite Exists_cons. tauto.
Qed.

(** X21: the months of the trend response.  When no ISSUE DATE begins with
    "valueOf", a month name that [Object.prototype] does not define is a
    key of the response exactly when some record is issued in that month,
    or has its EXP DATE in that month (whatever its status: the bucket is
    created before any test, so it can hold only zeros), or has a status
    mentioning "ethics" and that month as its violation month. *)
Theorem response_months_are_touched_months
    (newDate : string -> option Instant) (today : Instant)
    (records : list record) :
  Forall (fun cert : record =>
            getMonthEntry (cert !! "ISSUE DATE") <> Some "valueOf") records ->
  exists formatted,
    buildMonthlyTrends newDate today records = Ok formatted
    /\ forall month, Obj.objectPrototype month = None ->
         month ∈ Obj.keys formatted
         <-> Exists (fun cert => touches today month cert = true) records.
Proof.
  intros Hp%plain_issue_months. unfold buildMonthlyTrends.
  destruct (forEach_trendStep_counts newDate today records Hp Obj.empty)
    as (md & Hmd & _).
  rewrite Hmd. eexists. split; [done|]. intros month Hm.
  rewrite elem_of_keys, elem_of_keys_own. unfold formatMonthly.
  rewrite (own_fold_set (Obj.get md)) by by apply not_inherited_not_proto.
  assert (is_Some (Obj.own md month)
          <-> Exists (fun cert => touches today month cert = true) records)
    as Hdom.
  { rewrite (dom_forEach_trendStep _ _ _ _ _ _ Hm Hmd). simpl.
    split; [|by right]. by intros [[? ?] | ?]. }
  case_decide as E;
    rewrite (stableSort_perm defaultCompare), elem_of_keys, elem_of_keys_own
      in E.
  - split; [intros _; by apply Hdom | by eexists].
  - simpl. split; [by intros [? ?]|]. intros Hex. exfalso. by apply E, Hdom.
Qed.

Lemma response_months_are_touched_months_witness :
  exists formatted,
    buildMonthlyTrends isoDate june15 [certExpired; certLapsedEthics] = Ok formatted
    /\ forall month, Obj.objectPrototype month = None ->
         month ∈ Obj.keys formatted
         <-> Exists (fun cert => touches june15 month cert = true)
               [certExpired; certLapsedEthics].
Proof.
  apply (response_months_are_touched_months isoDate june15
           [certExpired; certLapsedEthics]).
  repeat constructor; intros H; vm_compute in H; discriminate.
Defined.

(** ** The order of the groups in the summary *)

Lemma filter_filter_andb {A} (f g : A -> bool) (l : list A) :
  List.filter f (List.filter g l) = List.filter (fun x => g x && f x) l.
Proof.
  induction l as [|x l IH]; simpl; [done|].
  destruct (g x); simpl; [|done]. destruct (f x); by rewrite IH.
Qed.

Lemma keys_set_cases {V} (o : Obj.t V) k v :
  (Obj.set o k v).*1
  = if bool_decide (k ∈ o.*1) || String.eqb k "__proto__"
    then o.*1 else o.*1 ++ [k].
Proof.
  unfold Obj.set. destruct (Obj.own o k) as [w|] eqn:E.
  - rewrite bool_decide_eq_true_2 by by eapply own_Some_keys.
    apply keys_overwrite.
  - rewrite bool_decide_eq_false_2 by by apply own_None_keys. simpl.
    destruct (String.eqb k "__proto__"); [done|]. by rewrite fmap_app.
Qed.

Lemma elem_of_distinct (l : list string) x : x ∈ distinct l -> x ∈ l.
Proof.
  revert x. induction l as [|a l IH]; intros x; simpl; [done|].
  intros [->|Hx]%elem_of_cons; [left|].
  apply list_elem_of_In, List.filter_In in Hx as [Hx _].
  right. by apply IH, list_elem_of_In.
Qed.

(** The keys of a counter object after a run of increments: the keys it
    had, then the new names in the order of their first appearance. *)
Lemma keys_fold_increment_order (name : record -> string)
    (records : list record) (counts : Obj.t count) :
  (fold_left (fun c cert => increment c (name cert)) records counts).*1
  = counts.*1
    ++ List.filter (fun y => negb (bool_decide (y ∈ counts.*1)))
         (distinct (List.filter (fun y => negb (String.eqb y "__proto__"))
                      (name <$> records))).
Proof.
  revert counts. induction records as [|cert records IH]; intros counts.
  - simpl. by rewrite app_nil_r.
  - cbn [fold_left fmap list_fmap]. rewrite IH. unfold increment.
    rewrite keys_set_cases. cbn [List.filter].
    set (rest := distinct _).
    destruct (String.eqb_spec (name cert) "__proto__") as [Hp|Hp].
    { by rewrite orb_true_r. }
    rewrite orb_false_r. cbn [negb distinct List.filter]. fold rest.
    rewrite filter_filter_andb.
    case_bool_decide as Hin; cbn [negb].
    + f_equal. apply List.filter_ext. intros y.
      destruct (String.eqb_spec y (name cert)) as [->|Hne]; simpl; [|done].
      by rewrite bool_decide_eq_true_2.
    + rewrite <- app_assoc. simpl. do 2 f_equal.
      apply List.filter_ext. intros y.
      destruct (String.eqb_spec y (name cert)) as [->|Hne]; simpl.
      * apply negb_false_iff, bool_decide_eq_true.
        apply elem_of_app. right. left.
      * f_equal. apply bool_decide_ext. rewrite elem_of_app.
        rewrite list_elem_of_singleton. tauto.
Qed.

Lemma keys_without_indices {V} (o : Obj.t V) :
  Forall (fun k => Obj.isIndex k = false) o.*1 -> Obj.keys o = o.*1.
Proof.
  intros Hall. unfold Obj.keys.
  rewrite filter_all_false by done. simpl.
  apply filter_all_true. eapply Forall_impl; [exact Hall|].
  simpl. by intros k ->.
Qed.

Lemma keys_of_grouping_in_order (field : string) (records : list record) :
  Forall (fun cert => Obj.isIndex (groupKey field cert) = false) records ->
  Obj.keys (fold_left (fun c cert => increment c (groupKey field cert))
              records Obj.empty)
  = groupNames field records.
Proof.
  intros Hall.
  assert ((fold_left (fun c cert => increment c (groupKey field cert))
             records Obj.empty).*1 = groupNames field records) as Hk.
  { rewrite keys_fold_increment_order. simpl.
    apply filter_all_true, Forall_forall. by intros x _. }
  rewrite keys_without_indices; [done|]. rewrite Hk.
  apply Forall_forall. intros k Hin%elem_of_distinct.
  apply list_elem_of_In, List.filter_In in Hin as [Hin _].
  apply list_elem_of_In, list_elem_of_fmap in Hin as (cert & -> & Hin).
  rewrite Forall_forall in Hall. by apply Hall.
Qed.

(** X22: the order of the groups in the summary.  When no group name is
    an array index, [JSON.stringify] lists the groups of each grouping in
    the order in which their names first appear among the records, each
    once. *)
Theorem summary_groups_in_order_of_first_appearance (records : list record) :
  Forall (fun cert =>
            Obj.isIndex (groupKey "CREDENTIAL" cert) = false
            /\ Obj.isIndex (groupKey "COUNTY" cert) = false
            /\ Obj.isIndex (groupKey "CITY" cert) = false) records ->
  Obj.keys (byCredential (summarize records))
  = groupNames "CREDENTIAL" records
  /\ Obj.keys (byCounty (summarize records)) = groupNames "COUNTY" records
  /\ Obj.keys (byCity (summarize records)) = groupNames "CITY" records.
Proof.
  intros Hall. unfold summarize.
  rewrite fold_countCert_byCredential, fold_countCert_byCounty,
    fold_countCert_byCity. simpl.
  split; [|split]; apply keys_of_grouping_in_order;
    (eapply Forall_impl; [exact Hall|]); simpl; tauto.
Qed.

Lemma summary_groups_in_order_of_first_appearance_witness :
  Obj.keys (byCredential (summarize [certNoCity; certProto; certNullName;
                                     certNoCity]))
  = ["CRS"; "Unknown"]
  /\ Obj.keys (byCounty (summarize [certNoCity; certProto; certNullName;
                                    certNoCity]))
     = ["Unknown"]
  /\ Obj.keys (byCity (summarize [certNoCity; certProto; certNullName;
                                  certNoCity]))
     = ["Unknown"].
Proof.
  apply (summary_groups_in_order_of_first_appearance
           [certNoCity; certProto; certNullName; certNoCity]).
  repeat constructor.
Defined.

(** X23: a data endpoint answers only after an ok upstream answer.  Past
    the preflight, when the router fulfils a request for one of the four
    endpoint paths, the upstream was asked for the certification records
    with the token and answered with a status from 200 to 299; on every
    other upstream outcome no response is produced. *)
Theorem data_endpoints_need_an_ok_upstream
    (fetch : Network) (newDate : string -> option Instant) (today : Instant)
    (request : Request) (url : Url) (env : Env) (response : Response) :
  method request <> "OPTIONS" ->
  pathname url ∈ ["/api/certifications"; "/api/summary";
                  "/api/monthly-trends"; "/api/table-data"] ->
  handleApiRequest fetch newDate today request url env = Fulfilled response ->
  exists reply,
    fetch (NOCODB_BASE_URL env +:+ "@u5qvrik517o/records?limit=10000")
      [("xc-token", NOCODB_API_TOKEN env)] = Fulfilled reply
    /\ 200 <= replyStatus reply <= 299.
Proof.
  intros Hm Hpath. rewrite router_hands_on_the_promise by done.
  assert (forall records,
            fetchFromNocoDB fetch env CERTIFICATIONS_TABLE_ID
              [("limit", "10000")] = Fulfilled records ->
            exists reply,
              fetch (NOCODB_BASE_URL env +:+ "@u5qvrik517o/records?limit=10000")
                [("xc-token", NOCODB_API_TOKEN env)] = Fulfilled reply
              /\ 200 <= replyStatus reply <= 299) as Hup.
  { intros records. unfold fetchFromNocoDB.
    change (NOCODB_BASE_URL env +:+ CERTIFICATIONS_TABLE_ID +:+ "/records"
            +:+ _)
      with (NOCODB_BASE_URL env +:+ "@u5qvrik517o/records?limit=10000").
    destruct (fetch _ _) as [reply|e]; simpl; [|done].
    destruct (ok reply) eqn:Hok; simpl; [|done].
    intros _. exists reply. split; [done|]. unfold ok in Hok. lia. }
  unfold fetchAllCertifications, getCertificationsSummary, getMonthlyTrends.
  destruct (fetchFromNocoDB fetch env CERTIFICATIONS_TABLE_ID
              [("limit", "10000")]) as [records|e] eqn:Ef.
  - intros _. by apply (Hup records).
  - simpl. repeat case_match; try done.
    intros _. exfalso.
    repeat match goal with
           | H : String.eqb _ _ = false |- _ => apply String.eqb_neq in H
           end.
    set_solver.
Qed.

Lemma data_endpoints_need_an_ok_upstream_witness :
  exists reply,
    Fulfilled (mkReply 200 "OK" "" [certNoCity]) = Fulfilled reply
    /\ 200 <= replyStatus reply <= 299.
Proof.
  apply (data_endpoints_need_an_ok_upstream
           (fun _ _ => Fulfilled (mkReply 200 "OK" "" [certNoCity]))
           isoDate june15
           (mkRequest "GET" (mkUrl "/api/summary" []))
           (mkUrl "/api/summary" []) (mkEnv "https://db.example/" "token")
           (jsonResponse (JsonSummary (summarize [certNoCity])) 200
              apiHeaders));
    [discriminate | set_solver | reflexivity].
Defined.

(** X24: without an entry document, the static branch hands on what the
    asset handler answered.  For a path outside /api/, when index.html is
    fetched with a status outside 200-299, a response of the asset handler
    is returned as it is, a 404 included; when the asset fetch fails, the
    worker answers 500 with the text "Error serving static content". *)
Theorem static_branch_without_index
    (fetch : Network) (newDate : string -> option Instant) (today : Instant)
    (assets : Request -> promise Response) (request : Request) (env : Env)
    (indexResponse : Response) :
  String.prefix "/api/" (pathname (requestUrl request)) = false ->
  assets indexRequest = Fulfilled indexResponse ->
  responseOk indexResponse = false ->
  defaultFetch fetch newDate today assets request env
  = match assets request with
    | Fulfilled found => Fulfilled found
    | Rejected _ =>
        Fulfilled {| body := Some (PlainText "Error serving static content");
                     status := 500;
                     headers :=
                       [("Content-Type", "text/plain;charset=UTF-8")] |}
    end.
Proof.
  intros Hpath Hindex Hok. unfold defaultFetch. rewrite Hpath.
  destruct (assets request) as [found|e]; simpl.
  - destruct (status found =? 404); simpl; [|done].
    rewrite Hindex. simpl. by rewrite Hok.
  - rewrite Hindex. simpl. by rewrite Hok.
Qed.

Lemma static_branch_without_index_witness :
  defaultFetch (fun _ _ => Rejected (TypeError "fetch failed")) isoDate june15
    (fun request =>
       if String.eqb (pathname (requestUrl request)) "/index.html"
       then Fulfilled {| body := None; status := 404; headers := [] |}
       else Rejected (TypeError "fetch failed"))
    (mkRequest "GET" (mkUrl "/dashboard" []))
    (mkEnv "https://db.example/" "token")
  = Fulfilled {| body := Some (PlainText "Error serving static content");
                 status := 500;
                 headers := [("Content-Type", "text/plain;charset=UTF-8")] |}.
Proof.
  apply (static_branch_without_index
           (fun _ _ => Rejected (TypeError "fetch failed")) isoDate june15
           (fun request =>
              if String.eqb (pathname (requestUrl request)) "/index.html"
              then Fulfilled {| body := None; status := 404; headers := [] |}
              else Rejected (TypeError "fetch failed"))
           (mkRequest "GET" (mkUrl "/dashboard" []))
           (mkEnv "https://db.example/" "token")
           {| body := None; status := 404; headers := [] |});
    reflexivity.
Defined.

(** ** Content types *)

Lemma rev_app_append (a b acc : string) :
  String.rev_app (a +:+ b) acc = String.rev_app b (String.rev_app a acc).
Proof.
  revert acc. induction a as [|c a IH]; intros acc; simpl; [done|].
  apply IH.
Qed.

(** X25: [getContentType] goes by the extension alone.  Whatever precedes
    it in the path, each of the nine extensions the function knows gives
    its content type: no earlier test of the chain catches a later
    extension (".json" is not taken for ".js", nor ".jpeg" for ".jpg"). *)
Theorem getContentType_by_extension (stem : string) :
  getContentType (stem +:+ ".html") = "text/html"
  /\ getContentType (stem +:+ ".css") = "text/css"
  /\ getContentType (stem +:+ ".js") = "application/javascript"
  /\ getContentType (stem +:+ ".json") = "application/json"
  /\ getContentType (stem +:+ ".png") = "image/png"
  /\ getContentType (stem +:+ ".jpg") = "image/jpeg"
  /\ getContentType (stem +:+ ".jpeg") = "image/jpeg"
  /\ getContentType (stem +:+ ".gif") = "image/gif"
  /\ getContentType (stem +:+ ".svg") = "image/svg+xml".
Proof.
  assert (forall s, String.prefix "" s = true) as Hnil by by intros [].
  unfold getContentType, endsWith, String.rev.
  rewrite !rev_app_append. simpl. rewrite !Hnil. repeat split.
Qed.
